(** * pci-contracts: the S-PAL datum codec and the enforcer

    A shallow embedding of [src/lucid/datum-builders.ts] (the Plutus-Data
    builders and parsers), of [src/lucid/provider.ts], of the class
    [SPALEnforcer] ([src/validators/spal-enforcer.ts]: the off-chain
    [validate] and the operations that build transactions) and of
    [getValidatorInfo] of the deployment script, with the JavaScript
    built-ins they call and the Lucid Evolution SDK as an interface,
    followed by the properties the specification states about them and by
    further properties of the code. *)

From Stdlib Require Import ZArith List String Ascii Bool Lia DecimalString.
Import ListNotations.
Open Scope string_scope.
Open Scope list_scope.
Open Scope Z_scope.

(* ================================================================== *)
(** * JavaScript values used by the program *)
(* ================================================================== *)

(** ** Strings

    A JavaScript string is a sequence of UTF-16 code units; a code unit is
    an integer in [0, 65536).  String literals of the source are written
    [js "..."] (all of them are ASCII). *)

Definition jsstring := list Z.

Definition js (s : string) : jsstring :=
  map (fun a => Z.of_N (N_of_ascii a)) (list_ascii_of_string s).

(** [s.length] *)
Definition str_length (s : jsstring) : Z := Z.of_nat (List.length s).

(** ToBoolean on a string: the empty string is the only falsy one. *)
Definition truthy (s : jsstring) : bool :=
  match s with
  | [] => false
  | _ :: _ => true
  end.

(** [s.startsWith(search)]: [search] is a prefix of [s], code unit by code
    unit. *)
Fixpoint startsWith (s search : jsstring) {struct search} : bool :=
  match search with
  | [] => true
  | c :: search' =>
      match s with
      | [] => false
      | d :: s' => (d =? c) && startsWith s' search'
      end
  end.

(** [s.includes(sub)] *)
Fixpoint includes (s sub : jsstring) : bool :=
  startsWith s sub ||
  match s with
  | [] => false
  | _ :: s' => includes s' sub
  end.

(** [s.toLowerCase()] on the ASCII letters (every message of the program is
    ASCII). *)
Definition toLowerCase (s : jsstring) : jsstring :=
  map (fun c => if (65 <=? c) && (c <=? 90) then c + 32 else c) s.

(** ** BigInt and Number

    A [bigint] is an integer, [Z].  [String(b)] of a bigint, as a template
    literal computes it, is its decimal numeral with a leading [-] when
    negative. *)

Definition bigint_toString (b : Z) : jsstring :=
  js (NilZero.string_of_int (Z.to_int b)).

(** A [number] is an IEEE-754 double.  The program converts numbers to and
    from bigints and compares them with [===], which depends on whether the
    double is an integer and on which one: [Int z] is the double whose value
    is the integer [z] (so [z] is representable, see [representable]),
    [NonInt] stands for every other double (a fraction, NaN, an
    infinity). *)

Inductive number : Type :=
  | Int (z : Z)
  | NonInt.

(** The integer nearest to [n >= 0] with a 53-bit significand, ties to even:
    the value of the double that [Number(n)] returns, overflow apart. *)
Definition round53 (n : Z) : Z :=
  let e := Z.log2 n - 52 in
  if e <=? 0 then n
  else
    let q := n / 2 ^ e in
    let r := n mod 2 ^ e in
    let half := 2 ^ (e - 1) in
    let q' := if r <? half then q
              else if half <? r then q + 1
              else if Z.even q then q else q + 1 in
    q' * 2 ^ e.

Definition representable (z : Z) : Prop :=
  round53 (Z.abs z) = Z.abs z /\ Z.abs z < 2 ^ 1024.

(** Exceptions: [new Error(message)] thrown by the program, and the
    RangeError and TypeError that built-ins throw (their messages are the
    engine's and are not modelled). *)
Inductive exn : Type :=
  | Error (message : jsstring)
  | RangeError
  | TypeError.

Inductive result (A : Type) : Type :=
  | Ok (a : A)
  | Throw (e : exn).

Arguments Ok {A} a.
Arguments Throw {A} e.

Definition bind {A B : Type} (r : result A) (k : A -> result B) : result B :=
  match r with
  | Ok a => k a
  | Throw e => Throw e
  end.

Notation "x <- r ;; k" := (bind r (fun x => k))
  (at level 61, r at next level, right associativity).

(** [BigInt(n)] of a number: the integer [n] is, RangeError when [n] is not
    an integer. *)
Definition BigInt (n : number) : result Z :=
  match n with
  | Int z => Ok z
  | NonInt => Throw RangeError
  end.

(** [Number(b)] of a bigint: the nearest double; beyond the largest double it
    is an infinity. *)
Definition Number (b : Z) : number :=
  let r := round53 (Z.abs b) in
  if r <? 2 ^ 1024 then Int (Z.sgn b * r) else NonInt.

(** ** TextEncoder, TextDecoder

    [new TextEncoder().encode(s)] first reads [s] as a sequence of Unicode
    scalar values, a surrogate pair giving one value and a surrogate without
    partner giving U+FFFD, then writes each value in UTF-8.  It never
    throws.  A [Uint8Array] is a list of bytes, integers in [0, 256). *)

Definition is_lead (c : Z) : bool := (0xD800 <=? c) && (c <=? 0xDBFF).
Definition is_trail (c : Z) : bool := (0xDC00 <=? c) && (c <=? 0xDFFF).

Fixpoint to_scalar_values (s : jsstring) : list Z :=
  match s with
  | [] => []
  | c :: s' =>
      if is_lead c then
        match s' with
        | [] => [0xFFFD]
        | d :: s'' =>
            if is_trail d
            then (0x10000 + (c - 0xD800) * 0x400 + (d - 0xDC00))
                 :: to_scalar_values s''
            else 0xFFFD :: to_scalar_values s'
        end
      else if is_trail c then 0xFFFD :: to_scalar_values s'
      else c :: to_scalar_values s'
  end.

Definition utf8_encode_cp (cp : Z) : list Z :=
  if cp <? 0x80 then [cp]
  else if cp <? 0x800 then [0xC0 + cp / 64; 0x80 + cp mod 64]
  else if cp <? 0x10000 then
    [0xE0 + cp / 4096; 0x80 + (cp / 64) mod 64; 0x80 + cp mod 64]
  else
    [0xF0 + cp / 262144; 0x80 + (cp / 4096) mod 64;
     0x80 + (cp / 64) mod 64; 0x80 + cp mod 64].

Definition TextEncoder_encode (s : jsstring) : list Z :=
  flat_map utf8_encode_cp (to_scalar_values s).

(** [new TextDecoder().decode(bytes)]: the UTF-8 decoder of the Encoding
    standard, in replacement mode (an ill-formed sequence gives U+FFFD and
    never throws), and with [ignoreBOM] at its default, false: when the first
    code point decoded is U+FEFF it is dropped from the result. *)

Record utf8_state : Type := {
  code_point : Z;
  bytes_needed : Z;
  bytes_seen : Z;
  lower_boundary : Z;
  upper_boundary : Z
}.

Definition utf8_start : utf8_state :=
  {| code_point := 0; bytes_needed := 0; bytes_seen := 0;
     lower_boundary := 0x80; upper_boundary := 0xBF |}.

(** A byte read when no continuation byte is awaited; the code point kept is
    the byte without its length marker ([b & 0x1F], [b & 0xF], [b & 0x7]). *)
Definition utf8_lead (b : Z) : list Z * utf8_state :=
  if b <=? 0x7F then ([b], utf8_start)
  else if (0xC2 <=? b) && (b <=? 0xDF) then
    ([], {| code_point := b - 0xC0; bytes_needed := 1; bytes_seen := 0;
            lower_boundary := 0x80; upper_boundary := 0xBF |})
  else if (0xE0 <=? b) && (b <=? 0xEF) then
    ([], {| code_point := b - 0xE0; bytes_needed := 2; bytes_seen := 0;
            lower_boundary := if b =? 0xE0 then 0xA0 else 0x80;
            upper_boundary := if b =? 0xED then 0x9F else 0xBF |})
  else if (0xF0 <=? b) && (b <=? 0xF4) then
    ([], {| code_point := b - 0xF0; bytes_needed := 3; bytes_seen := 0;
            lower_boundary := if b =? 0xF0 then 0x90 else 0x80;
            upper_boundary := if b =? 0xF4 then 0x8F else 0xBF |})
  else ([0xFFFD], utf8_start).

(** One byte through the decoder: the code points emitted and the next
    state.  A byte outside the awaited range ends the sequence with U+FFFD
    and is read again as a first byte.  [cp * 64 + (b - 0x80)] is
    [(cp << 6) | (b & 0x3F)] for a continuation byte [b]. *)
Definition utf8_step (st : utf8_state) (b : Z) : list Z * utf8_state :=
  if bytes_needed st =? 0 then utf8_lead b
  else if (b <? lower_boundary st) || (upper_boundary st <? b) then
    let (out, st') := utf8_lead b in (0xFFFD :: out, st')
  else
    let cp := code_point st * 64 + (b - 0x80) in
    if bytes_seen st + 1 =? bytes_needed st then ([cp], utf8_start)
    else ([], {| code_point := cp; bytes_needed := bytes_needed st;
                 bytes_seen := bytes_seen st + 1;
                 lower_boundary := 0x80; upper_boundary := 0xBF |}).

Fixpoint utf8_decode (st : utf8_state) (bytes : list Z) : list Z :=
  match bytes with
  | [] => if bytes_needed st =? 0 then [] else [0xFFFD]
  | b :: rest =>
      let (out, st') := utf8_step st b in out ++ utf8_decode st' rest
  end.

Definition strip_bom (cps : list Z) : list Z :=
  match cps with
  | [] => []
  | cp :: rest => if cp =? 0xFEFF then rest else cps
  end.

(** Code points back to UTF-16 code units. *)
Definition utf16_encode_cp (cp : Z) : jsstring :=
  if cp <? 0x10000 then [cp]
  else [0xD800 + (cp - 0x10000) / 0x400; 0xDC00 + (cp - 0x10000) mod 0x400].

Definition TextDecoder_decode (bytes : list Z) : jsstring :=
  flat_map utf16_encode_cp (strip_bom (utf8_decode utf8_start bytes)).

(** ** Hexadecimal digits, [parseInt], the regular expression of
    [hexToString] *)

(** The digit [d < 16] as [Number.prototype.toString(16)] writes it:
    ['0'..'9'], ['a'..'f']. *)
Definition hex_digit (d : Z) : Z := if d <? 10 then 48 + d else 87 + d.

(** [b.toString(16)] for an element [b] of a Uint8Array: one or two digits,
    no leading zero. *)
Definition toString16 (b : Z) : jsstring :=
  if b <? 16 then [hex_digit b] else [hex_digit (b / 16); hex_digit (b mod 16)].

(** [s.padStart(2, "0")] *)
Definition padStart2 (s : jsstring) : jsstring :=
  repeat 48 (2 - List.length s) ++ s.

(** [.] in a regular expression without flags matches one code unit that is
    not a line terminator. *)
Definition is_line_terminator (c : Z) : bool :=
  (c =? 0x0A) || (c =? 0x0D) || (c =? 0x2028) || (c =? 0x2029).

(** [s.match(/.{1,2}/g)]: the successive matches, scanning from the left,
    each as long as it can be; the empty list stands for [null] (no match),
    which the caller turns into an empty array with [?.] and [|| []]. *)
Fixpoint match_dot_1_2 (s : jsstring) : list jsstring :=
  match s with
  | [] => []
  | c1 :: s' =>
      if is_line_terminator c1 then match_dot_1_2 s'
      else
        match s' with
        | [] => [[c1]]
        | c2 :: s'' =>
            if is_line_terminator c2 then [c1] :: match_dot_1_2 s''
            else [c1; c2] :: match_dot_1_2 s''
        end
  end.

(** White space and line terminators, which [parseInt] skips at the start. *)
Definition is_white_space (c : Z) : bool :=
  ((0x09 <=? c) && (c <=? 0x0D)) || (c =? 0x20) || (c =? 0xA0)
  || (c =? 0x1680) || ((0x2000 <=? c) && (c <=? 0x200A))
  || (c =? 0x2028) || (c =? 0x2029) || (c =? 0x202F) || (c =? 0x205F)
  || (c =? 0x3000) || (c =? 0xFEFF).

Fixpoint trim_start (s : jsstring) : jsstring :=
  match s with
  | [] => []
  | c :: s' => if is_white_space c then trim_start s' else s
  end.

(** The value of a hexadecimal digit, either case. *)
Definition hex_value (c : Z) : option Z :=
  if (48 <=? c) && (c <=? 57) then Some (c - 48)
  else if (97 <=? c) && (c <=? 102) then Some (c - 87)
  else if (65 <=? c) && (c <=? 70) then Some (c - 55)
  else None.

(** The digits at the start of [s] read as a number in base 16, from the
    value [acc] of the digits already read; [seen] tells whether there was
    one. *)
Fixpoint hex_prefix (s : jsstring) (acc : Z) (seen : bool) : option Z :=
  match s with
  | [] => if seen then Some acc else None
  | c :: s' =>
      match hex_value c with
      | Some d => hex_prefix s' (acc * 16 + d) true
      | None => if seen then Some acc else None
      end
  end.

(** [parseInt(s, 16)]; [None] is NaN.  White space is skipped, then a sign,
    then [0x] or [0X]; the digits that follow are the value.  (The program
    applies it to strings of at most two code units, whose value a double
    holds exactly.) *)
Definition parseInt16 (s : jsstring) : option Z :=
  let s1 := trim_start s in
  let (sign, s2) :=
    match s1 with
    | c :: r => if c =? 45 then (-1, r) else if c =? 43 then (1, r) else (1, s1)
    | [] => (1, s1)
    end in
  let s3 :=
    match s2 with
    | z :: x :: r =>
        if (z =? 48) && ((x =? 120) || (x =? 88)) then r else s2
    | _ => s2
    end in
  match hex_prefix s3 0 false with
  | Some v => Some (sign * v)
  | None => None
  end.

(** An element stored into a Uint8Array: NaN becomes 0, an integer is taken
    modulo 256. *)
Definition ToUint8 (v : option Z) : Z :=
  match v with
  | Some z => z mod 256
  | None => 0
  end.

(** ** [Number(s)] of a string

    [Number(s)] drops the white space and the line terminators at both ends
    of [s] and reads what is left as a numeric literal: nothing at all, which
    is 0; [0x], [0o] or [0b] (either case) and digits of that base, without
    sign; or, after an optional sign, [Infinity] or a decimal literal, digits
    with an optional point and an optional exponent, at least one digit
    before or after the point.  Anything else is NaN.  The value of the
    literal is rounded to the nearest double, ties to even. *)

Definition trim (s : jsstring) : jsstring :=
  rev (trim_start (rev (trim_start s))).

Definition is_digit (c : Z) : bool := (48 <=? c) && (c <=? 57).

(** The digits at the start of a string, and what follows them. *)
Fixpoint span_digits (s : jsstring) : jsstring * jsstring :=
  match s with
  | [] => ([], [])
  | c :: s' =>
      if is_digit c then let (ds, rest) := span_digits s' in (c :: ds, rest)
      else ([], s)
  end.

(** The value in base [base] of a string of digits of that base, from the
    value [acc] of the digits before; [None] when a code unit is not such a
    digit. *)
Fixpoint digits_value (base : Z) (s : jsstring) (acc : Z) : option Z :=
  match s with
  | [] => Some acc
  | c :: s' =>
      match hex_value c with
      | Some d => if d <? base then digits_value base s' (acc * base + d) else None
      | None => None
      end
  end.

(** [a / b] rounded to the nearest integer, ties to even, for [0 <= a] and
    [0 < b]. *)
Definition round_half_even (a b : Z) : Z :=
  let q := a / b in
  let r := a mod b in
  if 2 * r <? b then q
  else if b <? 2 * r then q + 1
  else if Z.even q then q else q + 1.

(** The [k] with [2 ^ k <= n / d < 2 ^ (k + 1)], for [0 < n] and [0 < d]. *)
Definition floor_log2 (n d : Z) : Z :=
  let k := Z.log2 n - Z.log2 d in
  if (if 0 <=? k then d * 2 ^ k <=? n else d <=? n * 2 ^ (- k))
  then k else k - 1.

(** The double nearest to the rational [n / d], for [0 <= n] and [0 < d],
    with the sign given: a multiple [q * 2 ^ u] of the unit [2 ^ u] of its
    binade (of the subnormal numbers below [2 ^ -1022]), an infinity from
    [2 ^ 1024] on. *)
Definition double_of_ratio (negative : bool) (n d : Z) : number :=
  if n =? 0 then Int 0
  else
    let sign := if negative then -1 else 1 in
    let u := Z.max (floor_log2 n d - 52) (- 1074) in
    if 0 <=? u then
      let v := round_half_even n (d * 2 ^ u) * 2 ^ u in
      if v <? 2 ^ 1024 then Int (sign * v) else NonInt
    else
      let q := round_half_even (n * 2 ^ (- u)) d in
      if q mod 2 ^ (- u) =? 0 then Int (sign * (q / 2 ^ (- u))) else NonInt.

(** The exponent part of a decimal literal, [e] or [E], an optional sign and
    digits; nothing is the exponent 0. *)
Definition exponent_part (s : jsstring) : option Z :=
  match s with
  | [] => Some 0
  | c :: r =>
      if (c =? 101) || (c =? 69) then
        let (negative, ds) :=
          match r with
          | x :: r' =>
              if x =? 45 then (true, r')
              else if x =? 43 then (false, r') else (false, r)
          | [] => (false, r)
          end in
        match ds with
        | [] => None
        | _ :: _ =>
            match digits_value 10 ds 0 with
            | Some v => Some (if negative then - v else v)
            | None => None
            end
        end
      else None
  end.

(** An unsigned decimal literal, under the sign read before it. *)
Definition decimal_literal (negative : bool) (s : jsstring) : number :=
  if startsWith s (js "Infinity") && (List.length s =? 8)%nat then NonInt
  else
    let (ip, r1) := span_digits s in
    let (fp, r2) :=
      match r1 with
      | c :: r => if c =? 46 then span_digits r else ([], r1)
      | [] => ([], r1)
      end in
    match ip ++ fp with
    | [] => NonInt
    | _ :: _ =>
        match digits_value 10 (ip ++ fp) 0, exponent_part r2 with
        | Some m, Some e =>
            let e10 := e - Z.of_nat (List.length fp) in
            if 0 <=? e10 then double_of_ratio negative (m * 10 ^ e10) 1
            else double_of_ratio negative m (10 ^ (- e10))
        | _, _ => NonInt
        end
    end.

(** [0x], [0o] or [0b] at the start: the base and what follows. *)
Definition radix_prefix (s : jsstring) : option (Z * jsstring) :=
  match s with
  | z :: x :: ds =>
      if z =? 48 then
        if (x =? 120) || (x =? 88) then Some (16, ds)
        else if (x =? 111) || (x =? 79) then Some (8, ds)
        else if (x =? 98) || (x =? 66) then Some (2, ds)
        else None
      else None
  | _ => None
  end.

Definition StringToNumber (s : jsstring) : number :=
  let t := trim s in
  match t with
  | [] => Int 0
  | c :: r =>
      match radix_prefix t with
      | Some (base, ds) =>
          match ds with
          | [] => NonInt
          | _ :: _ =>
              match digits_value base ds 0 with
              | Some v => Number v
              | None => NonInt
              end
          end
      | None =>
          if c =? 45 then decimal_literal true r
          else if c =? 43 then decimal_literal false r
          else decimal_literal false t
      end
  end.

(* ================================================================== *)
(** * types.ts *)
(* ================================================================== *)

Record IdentityLinkage : Type := {
  ephemeralRequired : bool;
  proofOfRootAllowed : bool;
  zkContinuityAllowed : bool
}.

Record SPALPolicy : Type := {
  id : jsstring;
  ownerPkh : jsstring;
  minPayment : Z;
  maxRetentionMs : number;
  identityLinkage : IdentityLinkage;
  requiredProofHash : jsstring;
  contextScope : jsstring
}.

Record ValidationRequest : Type := {
  policyId : jsstring;
  requesterDid : jsstring;
  proofReference : jsstring;
  accessTime : number;
  paymentAmount : Z
}.

Record ValidationResult : Type := {
  valid : bool;
  error : option jsstring;
  txHash : option jsstring
}.

(* ================================================================== *)
(** * Plutus data, as the Lucid library represents it *)
(* ================================================================== *)

(** [Data = bigint | string | Array<Data> | Map<Data, Data> | Constr<Data>];
    a string stands for a byte array and holds its hexadecimal digits. *)
#[local] Set Warnings "-register-all".

Inductive Data : Type :=
  | Integer (b : Z)
  | Bytes (hex : jsstring)
  | Array (items : list Data)
  | Map (entries : list (Data * Data))
  | Constr (index : Z) (fields : list Data).

(** [String(d)] of a value of [Data], as [Array.prototype.join] and
    [Number()] compute it: a bigint in decimal, a string as it is, an array
    as its elements joined by commas; a [Map] and a [Constr] (a class of the
    library with the two fields [index] and [fields] and no [toString] of its
    own) have the text of [Object.prototype.toString]. *)
Fixpoint join (separator : jsstring) (l : list jsstring) : jsstring :=
  match l with
  | [] => []
  | [x] => x
  | x :: rest => x ++ separator ++ join separator rest
  end.

Fixpoint Data_toString (d : Data) : jsstring :=
  match d with
  | Integer b => bigint_toString b
  | Bytes hex => hex
  | Array items => join (js ",") (map Data_toString items)
  | Map _ => js "[object Map]"
  | Constr _ _ => js "[object Object]"
  end.

(** [Number(d)] of a value of [Data]: of a bigint the nearest double, of
    anything else the number its text reads as.  It never throws. *)
Definition Number_of_Data (d : Data) : number :=
  match d with
  | Integer b => Number b
  | _ => StringToNumber (Data_toString d)
  end.

(** Hexadecimal text of a byte array: two digits a byte, in either case. *)
Definition is_hex_text (s : jsstring) : bool :=
  Nat.even (List.length s)
  && forallb (fun c => match hex_value c with Some _ => true | None => false end) s.

(** [P] holds of every byte array of a tree. *)
Fixpoint all_bytes (P : jsstring -> bool) (d : Data) : bool :=
  match d with
  | Integer _ => true
  | Bytes hex => P hex
  | Array items => forallb (all_bytes P) items
  | Map entries =>
      forallb (fun kv : Data * Data =>
                 let (k, v) := kv in all_bytes P k && all_bytes P v) entries
  | Constr _ fields => forallb (all_bytes P) fields
  end.

(** [Data.to] and [Data.from] belong to the library, not to this repository:
    they are an interface here.  [Data_to d] is the CBOR text of [d],
    [Data_from] reads one back; either may throw. *)
Class DataCodec : Type := {
  Data_to : Data -> result jsstring;
  Data_from : jsstring -> result Data
}.

(* ================================================================== *)
(** * lucid/datum-builders.ts *)
(* ================================================================== *)

(** What a parser that casts with [as] gives: a value, an exception, or,
    when a cast let through a value of another type, an object that is not
    of the declared type ([IllTyped]; the function returns normally). *)
Inductive parsed (A : Type) : Type :=
  | Parsed (a : A)
  | Raised (e : exn)
  | IllTyped.

Arguments Parsed {A} a.
Arguments Raised {A} e.
Arguments IllTyped {A}.

(** [`${n}`] for an array length [n]. *)
Definition length_toString (n : nat) : jsstring :=
  bigint_toString (Z.of_nat n).

Definition stringToHex (str : jsstring) : jsstring :=
  flat_map (fun b => padStart2 (toString16 b)) (TextEncoder_encode str).

(** [const boolToData = (b) => new Constr(b ? 1 : 0, [])] *)
Definition boolToData (b : bool) : Data :=
  Constr (if b then 1 else 0) [].

Definition buildIdentityLinkage (linkage : IdentityLinkage) : Data :=
  Constr 0 [
    boolToData (ephemeralRequired linkage);
    boolToData (proofOfRootAllowed linkage);
    boolToData (zkContinuityAllowed linkage)
  ].

(** [s || ""] *)
Definition or_empty (s : jsstring) : jsstring :=
  if truthy s then s else js "".

Definition buildPolicyDatum (policy : SPALPolicy) : result Data :=
  retention <- BigInt (maxRetentionMs policy) ;;
  Ok (Constr 0 [
    Bytes (ownerPkh policy);
    Integer (minPayment policy);
    Integer retention;
    buildIdentityLinkage (identityLinkage policy);
    Bytes (or_empty (requiredProofHash policy));
    Bytes (stringToHex (contextScope policy))
  ]).

Definition buildAccessRedeemer (request : ValidationRequest) : result Data :=
  time <- BigInt (accessTime request) ;;
  Ok (Constr 0 [
    Bytes (stringToHex (requesterDid request));
    Bytes (or_empty (proofReference request));
    Integer time;
    Integer (paymentAmount request)
  ]).

(** [dataToBool], the closure of [parseIdentityLinkage]. *)
Definition dataToBool (d : Data) : result bool :=
  match d with
  | Constr index _ => Ok (index =? 1)
  | _ => Throw (Error (js "Invalid Bool data: expected Constr"))
  end.

Definition parseIdentityLinkage (data : Data) : result IdentityLinkage :=
  match data with
  | Constr _ fields =>
      match fields with
      | [f0; f1; f2] =>
          e <- dataToBool f0 ;;
          p <- dataToBool f1 ;;
          z <- dataToBool f2 ;;
          Ok {| ephemeralRequired := e;
                proofOfRootAllowed := p;
                zkContinuityAllowed := z |}
      | _ =>
          Throw (Error (js "Invalid IdentityLinkage data: expected 3 fields, got "
                        ++ length_toString (List.length fields)))
      end
  | _ => Throw (Error (js "Invalid IdentityLinkage data: expected Constr"))
  end.

Definition hexToString (hex : jsstring) : jsstring :=
  TextDecoder_decode
    (map (fun byte => ToUint8 (parseInt16 byte)) (match_dot_1_2 hex)).

(** The object literal is evaluated field by field: [Number()] never throws
    on a value of [Data], whatever the cast before it let through;
    [parseIdentityLinkage] throws before [hexToString] is reached, and
    [hexToString] throws a TypeError when its argument has no [match] method,
    that is when [fields[5]] is not a string.  The casts of [fields[0]],
    [fields[1]] and [fields[4]] check nothing: with a value of another type
    there, the object returned is not a [SPALPolicy]. *)
Definition parsePolicyDatum (data : Data) : parsed SPALPolicy :=
  match data with
  | Constr _ fields =>
      match fields with
      | [f0; f1; f2; f3; f4; f5] =>
          match parseIdentityLinkage f3 with
          | Throw e => Raised e
          | Ok linkage =>
              match f5 with
              | Bytes scope =>
                  match f0, f1, f4 with
                  | Bytes owner, Integer payment, Bytes proof =>
                      Parsed {| id := js "";
                                ownerPkh := owner;
                                minPayment := payment;
                                maxRetentionMs := Number_of_Data f2;
                                identityLinkage := linkage;
                                requiredProofHash := proof;
                                contextScope := hexToString scope |}
                  | _, _, _ => IllTyped
                  end
              | _ => Raised TypeError
              end
          end
      | _ =>
          Raised (Error (js "Invalid PolicyDatum data: expected 6 fields, got "
                         ++ length_toString (List.length fields)))
      end
  | _ => Raised (Error (js "Invalid PolicyDatum data: expected Constr"))
  end.

Section Serialization.

Context {codec : DataCodec}.

Definition serializeDatum (policy : SPALPolicy) : result jsstring :=
  datum <- buildPolicyDatum policy ;;
  Data_to datum.

Definition serializeRedeemer (request : ValidationRequest) : result jsstring :=
  redeemer <- buildAccessRedeemer request ;;
  Data_to redeemer.

Definition deserializeDatum (cbor : jsstring) : parsed SPALPolicy :=
  match Data_from cbor with
  | Ok data => parsePolicyDatum data
  | Throw e => Raised e
  end.

End Serialization.

(* ================================================================== *)
(** * A reference codec *)
(* ================================================================== *)

(** An instance of [DataCodec] to run the serialization functions with: the
    CBOR encoding of Plutus data (RFC 8949 items; a constructor is a tagged
    list, tag [121 + i] for [i <= 6], [1280 + (i - 7)] for [i <= 127], tag
    102 with the index spelled out beyond; a byte array longer than 64 bytes
    is written in chunks), as hexadecimal text.  It refuses a tree with a
    byte array that is not hexadecimal text, two digits a byte (the library
    throws on an odd number of digits), reads the digits in either case and
    writes them in lower case. *)
Module CBOR.

Fixpoint be_bytes (k : nat) (n : Z) : list Z :=
  match k with
  | O => []
  | S k' => be_bytes k' (n / 256) ++ [n mod 256]
  end.

Definition be_value (bs : list Z) : Z :=
  fold_left (fun acc b => acc * 256 + b) bs 0.

(** The head of an item: major type and argument. *)
Definition head (major n : Z) : list Z :=
  if n <? 24 then [major * 32 + n]
  else if n <? 256 then [major * 32 + 24; n]
  else if n <? 65536 then (major * 32 + 25) :: be_bytes 2 n
  else if n <? 2 ^ 32 then (major * 32 + 26) :: be_bytes 4 n
  else (major * 32 + 27) :: be_bytes 8 n.

Definition byte_string (bs : list Z) : list Z :=
  head 2 (Z.of_nat (List.length bs)) ++ bs.

Fixpoint chunks (fuel : nat) (bs : list Z) : list Z :=
  match fuel with
  | O => []
  | S fuel' =>
      match bs with
      | [] => []
      | _ :: _ => byte_string (firstn 64 bs) ++ chunks fuel' (skipn 64 bs)
      end
  end.

Definition bytes_item (bs : list Z) : list Z :=
  if (List.length bs <=? 64)%nat then byte_string bs
  else 0x5F :: chunks (List.length bs) bs ++ [0xFF].

Definition magnitude (n : Z) : list Z :=
  be_bytes (Z.to_nat (Z.log2 n / 8 + 1)) n.

Definition integer_item (z : Z) : list Z :=
  if 0 <=? z then
    if z <? 2 ^ 64 then head 0 z else 0xC2 :: byte_string (magnitude z)
  else
    if - 2 ^ 64 <=? z then head 1 (- 1 - z)
    else 0xC3 :: byte_string (magnitude (- 1 - z)).

Definition list_item (items : list (list Z)) : list Z :=
  match items with
  | [] => [0x80]
  | _ :: _ => 0x9F :: List.concat items ++ [0xFF]
  end.

Fixpoint item (d : Data) : list Z :=
  match d with
  | Integer z => integer_item z
  | Bytes hex =>
      bytes_item (map (fun byte => ToUint8 (parseInt16 byte)) (match_dot_1_2 hex))
  | Array items => list_item (map item items)
  | Map entries =>
      head 5 (Z.of_nat (List.length entries))
      ++ flat_map (fun kv : Data * Data => let (k, v) := kv in item k ++ item v) entries
  | Constr index fields =>
      (if index <=? 6 then head 6 (121 + index)
       else if index <=? 127 then head 6 (1280 + (index - 7))
       else head 6 102 ++ [0x82] ++ head 0 index)
      ++ list_item (map item fields)
  end.

Fixpoint indices_ok (d : Data) : bool :=
  match d with
  | Integer _ | Bytes _ => true
  | Array items => forallb indices_ok items
  | Map entries =>
      forallb (fun kv : Data * Data => let (k, v) := kv in indices_ok k && indices_ok v) entries
  | Constr index fields =>
      (0 <=? index) && (index <? 2 ^ 64) && forallb indices_ok fields
  end.

Definition toHex (bs : list Z) : jsstring :=
  flat_map (fun b => [hex_digit (b / 16); hex_digit (b mod 16)]) bs.

(** Reading.  [argument] reads the argument of a head whose low five bits
    are [info]; [None] when the bytes run out or [info] is reserved. *)
Definition take (n : nat) (bs : list Z) : option (list Z * list Z) :=
  if (n <=? List.length bs)%nat then Some (firstn n bs, skipn n bs) else None.

Definition argument (info : Z) (bs : list Z) : option (Z * list Z) :=
  if info <? 24 then Some (info, bs)
  else if info <? 28 then
    match take (Nat.pow 2 (Z.to_nat (info - 24))) bs with
    | Some (arg, rest) => Some (be_value arg, rest)
    | None => None
    end
  else None.

(** The chunks of an indefinite byte string, up to the break. *)
Fixpoint read_chunks (fuel : nat) (bs : list Z) : option (list Z * list Z) :=
  match fuel with
  | O => None
  | S fuel' =>
      match bs with
      | [] => None
      | b :: rest =>
          if b =? 0xFF then Some ([], rest)
          else if b / 32 =? 2 then
            match argument (b mod 32) rest with
            | Some (n, rest1) =>
                match take (Z.to_nat n) rest1 with
                | Some (chunk, rest2) =>
                    match read_chunks fuel' rest2 with
                    | Some (more, rest3) => Some (chunk ++ more, rest3)
                    | None => None
                    end
                | None => None
                end
            | None => None
            end
          else None
      end
  end.

Definition read_bytes (fuel : nat) (bs : list Z) : option (list Z * list Z) :=
  match bs with
  | [] => None
  | b :: rest =>
      if b =? 0x5F then read_chunks fuel rest
      else if b / 32 =? 2 then
        match argument (b mod 32) rest with
        | Some (n, rest1) => take (Z.to_nat n) rest1
        | None => None
        end
      else None
  end.

Fixpoint read (fuel : nat) (bs : list Z) : option (Data * list Z) :=
  match fuel with
  | O => None
  | S fuel' =>
      match bs with
      | [] => None
      | b :: rest =>
          let major := b / 32 in
          let info := b mod 32 in
          if major =? 0 then
            match argument info rest with
            | Some (n, rest1) => Some (Integer n, rest1)
            | None => None
            end
          else if major =? 1 then
            match argument info rest with
            | Some (n, rest1) => Some (Integer (- 1 - n), rest1)
            | None => None
            end
          else if major =? 2 then
            match read_bytes fuel' bs with
            | Some (payload, rest1) => Some (Bytes (toHex payload), rest1)
            | None => None
            end
          else if major =? 4 then
            match read_list fuel' bs with
            | Some (items, rest1) => Some (Array items, rest1)
            | None => None
            end
          else if major =? 5 then
            match argument info rest with
            | Some (n, rest1) =>
                match read_entries fuel' (Z.to_nat n) rest1 with
                | Some (entries, rest2) => Some (Map entries, rest2)
                | None => None
                end
            | None => None
            end
          else if major =? 6 then
            match argument info rest with
            | Some (tag, rest1) =>
                if tag =? 2 then
                  match read_bytes fuel' rest1 with
                  | Some (m, rest2) => Some (Integer (be_value m), rest2)
                  | None => None
                  end
                else if tag =? 3 then
                  match read_bytes fuel' rest1 with
                  | Some (m, rest2) => Some (Integer (- 1 - be_value m), rest2)
                  | None => None
                  end
                else if (121 <=? tag) && (tag <=? 127) then
                  match read_list fuel' rest1 with
                  | Some (fields, rest2) => Some (Constr (tag - 121) fields, rest2)
                  | None => None
                  end
                else if (1280 <=? tag) && (tag <=? 1400) then
                  match read_list fuel' rest1 with
                  | Some (fields, rest2) =>
                      Some (Constr (tag - 1280 + 7) fields, rest2)
                  | None => None
                  end
                else if tag =? 102 then
                  match rest1 with
                  | two :: h :: rest2 =>
                      if (two =? 0x82) && (h / 32 =? 0) then
                        match argument (h mod 32) rest2 with
                        | Some (index, rest3) =>
                            match read_list fuel' rest3 with
                            | Some (fields, rest4) =>
                                Some (Constr index fields, rest4)
                            | None => None
                            end
                        | None => None
                        end
                      else None
                  | _ => None
                  end
                else None
            | None => None
            end
          else None
      end
  end

with read_list (fuel : nat) (bs : list Z) : option (list Data * list Z) :=
  match fuel with
  | O => None
  | S fuel' =>
      match bs with
      | [] => None
      | b :: rest =>
          if b =? 0x9F then read_until_break fuel' rest
          else if b / 32 =? 4 then
            match argument (b mod 32) rest with
            | Some (n, rest1) => read_items fuel' (Z.to_nat n) rest1
            | None => None
            end
          else None
      end
  end

with read_until_break (fuel : nat) (bs : list Z) : option (list Data * list Z) :=
  match fuel with
  | O => None
  | S fuel' =>
      match bs with
      | [] => None
      | b :: rest =>
          if b =? 0xFF then Some ([], rest)
          else
            match read fuel' bs with
            | Some (d, rest1) =>
                match read_until_break fuel' rest1 with
                | Some (more, rest2) => Some (d :: more, rest2)
                | None => None
                end
            | None => None
            end
      end
  end

with read_items (fuel : nat) (n : nat) (bs : list Z) : option (list Data * list Z) :=
  match fuel with
  | O => None
  | S fuel' =>
      match n with
      | O => Some ([], bs)
      | S n' =>
          match read fuel' bs with
          | Some (d, rest1) =>
              match read_items fuel' n' rest1 with
              | Some (more, rest2) => Some (d :: more, rest2)
              | None => None
              end
          | None => None
          end
      end
  end

with read_entries (fuel : nat) (n : nat) (bs : list Z)
  : option (list (Data * Data) * list Z) :=
  match fuel with
  | O => None
  | S fuel' =>
      match n with
      | O => Some ([], bs)
      | S n' =>
          match read fuel' bs with
          | Some (k, rest1) =>
              match read fuel' rest1 with
              | Some (v, rest2) =>
                  match read_entries fuel' n' rest2 with
                  | Some (more, rest3) => Some ((k, v) :: more, rest3)
                  | None => None
                  end
              | None => None
              end
          | None => None
          end
      end
  end.

Definition to (d : Data) : result jsstring :=
  if indices_ok d && all_bytes is_hex_text d then Ok (toHex (item d))
  else Throw (Error (js "Could not serialize the data")).

Definition from (cbor : jsstring) : result Data :=
  let bs := map (fun byte => ToUint8 (parseInt16 byte)) (match_dot_1_2 cbor) in
  match read (4 * List.length bs + 4) bs with
  | Some (d, []) => Ok d
  | _ => Throw (Error (js "Could not deserialize the data"))
  end.

Definition codec : DataCodec := {| Data_to := to; Data_from := from |}.

End CBOR.

(* ================================================================== *)
(** * validators/spal-enforcer.ts: SPALEnforcer.validate *)
(* ================================================================== *)

Module SPALEnforcer.

(** [{ valid: false, error: msg }] *)
Definition rejected (msg : jsstring) : ValidationResult :=
  {| valid := false; error := Some msg; txHash := None |}.

(** [{ valid: true }] *)
Definition accepted : ValidationResult :=
  {| valid := true; error := None; txHash := None |}.

(** The method reads neither [this] nor any state, and awaits nothing: the
    promise it returns is resolved with the value computed here.  Each of
    its three blocks is [if (a) { if (b) { return r; } }], that is
    [if (a && b) return r;], the conditions having no effect. *)
Definition validate (policy : SPALPolicy) (request : ValidationRequest)
  : ValidationResult :=
  (* 1. Check identity linkage requirements *)
  if ephemeralRequired (identityLinkage policy)
     && negb (startsWith (requesterDid request) (js "did:key:z"))
  then rejected (js "Ephemeral DID (did:key) required for this policy")
  else
  (* 2. Check payment if required *)
  if (0 <? minPayment policy)
     && (paymentAmount request <? minPayment policy)
  then rejected (js "Insufficient payment: required "
                 ++ bigint_toString (minPayment policy)
                 ++ js ", got "
                 ++ bigint_toString (paymentAmount request))
  else
  (* 3. Check proof requirement *)
  if (truthy (requiredProofHash policy)
      && (0 <? str_length (requiredProofHash policy)))
     && (negb (truthy (proofReference request))
         || (str_length (proofReference request) =? 0))
  then rejected (js "Proof reference required but not provided")
  else accepted.

End SPALEnforcer.

(* ================================================================== *)
(** * types.ts, the types of the on-chain operations *)
(* ================================================================== *)

Record CompiledScript : Type := {
  cborHex : jsstring;
  hash : jsstring;
  address : option jsstring
}.

Inductive Network : Type := Mainnet | Preprod | Preview | Custom.

Record LucidConfig : Type := {
  network : Network;
  providerUrl : jsstring;
  apiKey : option jsstring;
  networkMagic : option number
}.

(** A value whose declared type is [A] and that no cast has checked: a value
    of [A], or one of another type. *)
Inductive unchecked (A : Type) : Type :=
  | Typed (a : A)
  | Untyped.

Arguments Typed {A} a.
Arguments Untyped {A}.

(** [PolicyUtxo]; its [datum] is what [parsePolicyDatum] returned. *)
Module PolicyUtxo.

Record t : Type := {
  txHash : jsstring;
  outputIndex : number;
  datum : unchecked SPALPolicy;
  lovelace : Z
}.

End PolicyUtxo.

(** ** More of JavaScript's strings *)

(** [s === t] on strings. *)
Fixpoint str_eqb (s t : jsstring) : bool :=
  match s, t with
  | [], [] => true
  | c :: s', d :: t' => (c =? d) && str_eqb s' t'
  | _, _ => false
  end.

(** ToBoolean on a string that may be [undefined] or [null]. *)
Definition truthy_opt (s : option jsstring) : bool :=
  match s with
  | Some s' => truthy s'
  | None => false
  end.

(** [s.replace(pattern, replacement)] with a string as pattern: the first
    occurrence of [pattern] is replaced.  (The replacement of the program
    holds no [$], so it is taken as it is.) *)
Fixpoint replace (s pattern replacement : jsstring) : jsstring :=
  if startsWith s pattern then replacement ++ skipn (List.length pattern) s
  else
    match s with
    | [] => []
    | c :: s' => c :: replace s' pattern replacement
    end.

(* ================================================================== *)
(** * The Lucid library, as the program uses it *)
(* ================================================================== *)

(** The values the program exchanges with the library, and the library's
    operations as an interface: what they answer is not the repository's to
    decide. *)
Module Lucid.

Definition Address := jsstring.

(** [new Kupmios(kupoUrl, ogmiosUrl)], [new Blockfrost(url, projectId)]: the
    arguments in the order of the library's constructors. *)
Inductive Provider : Type :=
  | Kupmios (kupoUrl ogmiosUrl : jsstring)
  | Blockfrost (url projectId : jsstring).

(** The endpoints a Kupmios provider talks to. *)
Definition kupo_endpoint (provider : Provider) : option jsstring :=
  match provider with
  | Kupmios kupoUrl _ => Some kupoUrl
  | Blockfrost _ _ => None
  end.

Definition ogmios_endpoint (provider : Provider) : option jsstring :=
  match provider with
  | Kupmios _ ogmiosUrl => Some ogmiosUrl
  | Blockfrost _ _ => None
  end.

Inductive ScriptType : Type := Native | PlutusV1 | PlutusV2 | PlutusV3.

(** [SpendingValidator]: [{ type, script }] *)
Record Script : Type := {
  type : ScriptType;
  script : jsstring
}.

(** [Assets]: the lovelace and the other units of a value. *)
Record Assets : Type := {
  lovelace : Z;
  units : list (jsstring * Z)
}.

(** [UTxO]; the index of an output on chain is an integer, and [datum] may be
    absent. *)
Record UTxO : Type := {
  txHash : jsstring;
  outputIndex : Z;
  address : Address;
  assets : Assets;
  datumHash : option jsstring;
  datum : option jsstring;
  scriptRef : option Script
}.

(** [{ kind, value }] *)
Inductive OutputDatum : Type :=
  | by_hash (value : jsstring)
  | asHash (value : jsstring)
  | inline (value : jsstring).

(** The calls made on a transaction builder, in order; [newTx()] is the
    empty list. *)
Inductive TxStep : Type :=
  | collectFrom (utxos : list UTxO) (redeemer : jsstring)
  | attach_SpendingValidator (validator : Script)
  | addSignerKey (keyHash : jsstring)
  | pay_ToAddress (to : Address) (value : Assets)
  | pay_ToAddressWithData (to : Address) (data : OutputDatum) (value : Assets).

Definition TxBuilder := list TxStep.

Class SDK : Type := {
  LucidEvolution : Type;
  Credential : Type;
  TxSignBuilder : Type;
  TxSigned : Type;
  (** [await Lucid(provider, network)] *)
  Lucid : Provider -> Network -> result LucidEvolution;
  validatorToAddress : Network -> Script -> result Address;
  keyHashToCredential : jsstring -> Credential;
  credentialToAddress : Network -> Credential -> result Address;
  (** [await lucid.utxosAt(address)] *)
  utxosAt : LucidEvolution -> Address -> result (list UTxO);
  (** [await txBuilder.complete()] *)
  complete : LucidEvolution -> TxBuilder -> result TxSignBuilder;
  (** [tx.toString()] *)
  tx_toString : TxSignBuilder -> jsstring;
  (** [lucid.fromTx(cbor)] *)
  fromTx : LucidEvolution -> jsstring -> result TxSignBuilder;
  (** [await tx.sign.withWallet().complete()] *)
  sign_withWallet_complete : TxSignBuilder -> result TxSigned;
  (** [await signedTx.submit()] *)
  submit : TxSigned -> result jsstring
}.

End Lucid.

(* ================================================================== *)
(** * lucid/provider.ts *)
(* ================================================================== *)

(** [new Kupmios(config.providerUrl, kupoUrl)]: the URL of the configuration
    goes first, where the library takes the Kupo endpoint, and the program's
    [kupoUrl] second, where the library takes the Ogmios endpoint. *)
Definition createProvider (config : LucidConfig) : result Lucid.Provider :=
  if includes (providerUrl config) (js "localhost")
     || includes (providerUrl config) (js "127.0.0.1")
  then
    let kupoUrl := replace (providerUrl config) (js ":1337") (js ":1442") in
    Ok (Lucid.Kupmios (providerUrl config) kupoUrl)
  else
    match apiKey config with
    | Some key =>
        if negb (truthy key)
        then Throw (Error (js "Blockfrost API key required for non-local networks"))
        else Ok (Lucid.Blockfrost (providerUrl config) key)
    | None =>
        Throw (Error (js "Blockfrost API key required for non-local networks"))
    end.

(** The [default] branch of the switch is out of reach of a [Network]. *)
Definition mapNetwork (n : Network) : Network :=
  match n with
  | Mainnet => Mainnet
  | Preprod => Preprod
  | Preview => Preview
  | Custom => Custom
  end.

Definition initializeLucid {sdk : Lucid.SDK} (config : LucidConfig)
  : result Lucid.LucidEvolution :=
  provider <- createProvider config ;;
  Lucid.Lucid provider (mapNetwork (network config)).

Definition getDefaultConfig (n : Network) : LucidConfig :=
  match n with
  | Custom =>
      {| network := Custom;
         providerUrl := js "http://localhost:1337";
         apiKey := None;
         networkMagic := Some (Int 764824073) |}
  | Preview =>
      {| network := Preview;
         providerUrl := js "https://cardano-preview.blockfrost.io/api/v0";
         apiKey := None;
         networkMagic := None |}
  | Preprod =>
      {| network := Preprod;
         providerUrl := js "https://cardano-preprod.blockfrost.io/api/v0";
         apiKey := None;
         networkMagic := None |}
  | Mainnet =>
      {| network := Mainnet;
         providerUrl := js "https://cardano-mainnet.blockfrost.io/api/v0";
         apiKey := None;
         networkMagic := None |}
  end.

(* ================================================================== *)
(** * validators/spal-enforcer.ts: the on-chain operations *)
(* ================================================================== *)

(** A validator of the Aiken blueprint ([spal_validator/plutus.json]). *)
Module Blueprint.

Record Validator : Type := {
  title : jsstring;
  compiledCode : jsstring;
  hash : jsstring
}.

End Blueprint.

Module Enforcer.

Section WithLibraries.

Context {sdk : Lucid.SDK} {codec : DataCodec}.

(** The private fields of an enforcer. *)
Record t : Type := {
  this_script : CompiledScript;
  this_lucid : option Lucid.LucidEvolution;
  this_validator : option Lucid.Script;
  this_scriptAddress : option Lucid.Address;
  this_network : Network
}.

Definition MIN_UTXO_LOVELACE : Z := 2000000.

(** [new SPALEnforcer(script)] *)
Definition new (script : CompiledScript) : t :=
  {| this_script := script;
     this_lucid := None;
     this_validator := None;
     this_scriptAddress := None;
     this_network := Preview |}.

Definition not_initialized : exn :=
  Error (js "Lucid not initialized. Call initLucid first.").

(** [SPALEnforcer.fromBlueprint()], of the validators of the blueprint. *)
Definition fromBlueprint (validators : list Blueprint.Validator) : result t :=
  match find (fun v => str_eqb (Blueprint.title v) (js "spal.spal.spend"))
             validators with
  | None => Throw (Error (js "S-PAL spend validator not found in blueprint"))
  | Some spendValidator =>
      Ok (new {| cborHex := Blueprint.compiledCode spendValidator;
                 hash := Blueprint.hash spendValidator;
                 address := None |})
  end.

(** [initLucid] assigns the fields one after the other: when a later step
    throws, the earlier assignments stay.  The enforcer after the call and
    the outcome of the call. *)
Definition initLucid (this : t) (config : LucidConfig) : t * result unit :=
  match initializeLucid config with
  | Throw e => (this, Throw e)
  | Ok lucid =>
      let net := match network config with
                 | Custom => Custom
                 | other => other
                 end in
      let validator :=
        {| Lucid.type := Lucid.PlutusV3;
           Lucid.script := cborHex (this_script this) |} in
      match Lucid.validatorToAddress net validator with
      | Throw e =>
          ({| this_script := this_script this;
              this_lucid := Some lucid;
              this_validator := Some validator;
              this_scriptAddress := this_scriptAddress this;
              this_network := net |}, Throw e)
      | Ok scriptAddress =>
          ({| this_script := this_script this;
              this_lucid := Some lucid;
              this_validator := Some validator;
              this_scriptAddress := Some scriptAddress;
              this_network := net |}, Ok tt)
      end
  end.

Definition getScriptHash (this : t) : jsstring := hash (this_script this).

Definition getCborHex (this : t) : jsstring := cborHex (this_script this).

Definition getScriptAddress (this : t) : result Lucid.Address :=
  match this_scriptAddress this with
  | Some scriptAddress =>
      if truthy scriptAddress then Ok scriptAddress else Throw not_initialized
  | None => Throw not_initialized
  end.

(** The transaction of [createPolicyUtxo] as it stands when [complete] is
    called, with the Lucid instance it is built on. *)
Definition createPolicyUtxo_tx (this : t) (policy : SPALPolicy)
  : result (Lucid.LucidEvolution * Lucid.TxBuilder) :=
  match this_lucid this, this_scriptAddress this with
  | Some lucid, Some scriptAddress =>
      if negb (truthy scriptAddress) then Throw not_initialized
      else
        datum <- buildPolicyDatum policy ;;
        datumCbor <- Data_to datum ;;
        Ok (lucid,
            [Lucid.pay_ToAddressWithData scriptAddress (Lucid.inline datumCbor)
               {| Lucid.lovelace := MIN_UTXO_LOVELACE; Lucid.units := [] |}])
  | _, _ => Throw not_initialized
  end.

Definition createPolicyUtxo (this : t) (policy : SPALPolicy) : result jsstring :=
  built <- createPolicyUtxo_tx this policy ;;
  tx <- Lucid.complete (fst built) (snd built) ;;
  signedTx <- Lucid.sign_withWallet_complete tx ;;
  Lucid.submit signedTx.

(** One turn of the loop of [findPolicyUtxos], from the array [result] to
    the array after the turn: for an output with a datum (a string that is
    not empty) that [Data.from] and [parsePolicyDatum] take without
    throwing, an entry is pushed, with what [parsePolicyDatum] returned as
    datum; when one of them throws, the [catch] goes on to the next output,
    and an output without datum is passed over. *)
Definition findPolicyUtxos_turn (result : list PolicyUtxo.t) (utxo : Lucid.UTxO)
  : list PolicyUtxo.t :=
  if truthy_opt (Lucid.datum utxo) then
    match Lucid.datum utxo with
    | Some cbor =>
        let push policy :=
          result ++ [{| PolicyUtxo.txHash := Lucid.txHash utxo;
                        PolicyUtxo.outputIndex := Int (Lucid.outputIndex utxo);
                        PolicyUtxo.datum := policy;
                        PolicyUtxo.lovelace :=
                          Lucid.lovelace (Lucid.assets utxo) |}] in
        match Data_from cbor with
        | Throw _ => result
        | Ok data =>
            match parsePolicyDatum data with
            | Raised _ => result
            | Parsed policy => push (Typed policy)
            | IllTyped => push Untyped
            end
        end
    | None => result
    end
  else result.

Definition findPolicyUtxos_loop (utxos : list Lucid.UTxO) : list PolicyUtxo.t :=
  fold_left findPolicyUtxos_turn utxos [].

Definition findPolicyUtxos (this : t) : result (list PolicyUtxo.t) :=
  match this_lucid this, this_scriptAddress this with
  | Some lucid, Some scriptAddress =>
      if negb (truthy scriptAddress) then Throw not_initialized
      else
        utxos <- Lucid.utxosAt lucid scriptAddress ;;
        Ok (findPolicyUtxos_loop utxos)
  | _, _ => Throw not_initialized
  end.

(** [u.txHash === policyUtxo.txHash && u.outputIndex === policyUtxo.outputIndex];
    an integer is equal to no other number. *)
Definition same_output (policyUtxo : PolicyUtxo.t) (u : Lucid.UTxO) : bool :=
  str_eqb (Lucid.txHash u) (PolicyUtxo.txHash policyUtxo)
  && match PolicyUtxo.outputIndex policyUtxo with
     | Int index => Lucid.outputIndex u =? index
     | NonInt => false
     end.

(** The variable [txBuilder] of [buildValidationTx] when [complete] is
    called on it, with the Lucid instance it is built on. *)
Definition txBuilder (this : t) (policy : SPALPolicy) (policyUtxo : PolicyUtxo.t)
  (request : ValidationRequest)
  : result (Lucid.LucidEvolution * Lucid.TxBuilder) :=
  match this_lucid this, this_validator this, this_scriptAddress this with
  | Some lucid, Some validator, Some scriptAddress =>
      if negb (truthy scriptAddress) then Throw not_initialized
      else
        (* Build redeemer *)
        redeemer <- buildAccessRedeemer request ;;
        redeemerCbor <- Data_to redeemer ;;
        (* Rebuild datum for return output *)
        datum <- buildPolicyDatum policy ;;
        datumCbor <- Data_to datum ;;
        (* Find the UTxO *)
        utxos <- Lucid.utxosAt lucid scriptAddress ;;
        match find (same_output policyUtxo) utxos with
        | None => Throw (Error (js "Policy UTxO not found"))
        | Some targetUtxo =>
            let spend :=
              [Lucid.collectFrom [targetUtxo] redeemerCbor;
               Lucid.attach_SpendingValidator validator;
               Lucid.addSignerKey (ownerPkh policy)] in
            (* Add payment output if required *)
            paid <-
              (if (0 <? minPayment policy) && (0 <? paymentAmount request) then
                 let paymentCredential :=
                   Lucid.keyHashToCredential (ownerPkh policy) in
                 ownerAddress <-
                   Lucid.credentialToAddress (this_network this) paymentCredential ;;
                 Ok (spend ++
                     [Lucid.pay_ToAddress ownerAddress
                        {| Lucid.lovelace := paymentAmount request;
                           Lucid.units := [] |}])
               else Ok spend) ;;
            (* Return datum to script address *)
            Ok (lucid,
                paid ++
                [Lucid.pay_ToAddressWithData scriptAddress
                   (Lucid.inline datumCbor)
                   {| Lucid.lovelace := MIN_UTXO_LOVELACE; Lucid.units := [] |}])
        end
  | _, _, _ => Throw not_initialized
  end.

(** [{ txCbor }] *)
Definition buildValidationTx (this : t) (policy : SPALPolicy)
  (policyUtxo : PolicyUtxo.t) (request : ValidationRequest) : result jsstring :=
  built <- txBuilder this policy policyUtxo request ;;
  tx <- Lucid.complete (fst built) (snd built) ;;
  Ok (Lucid.tx_toString tx).

Definition signAndSubmitValidationTx (this : t) (unsignedTxCbor : jsstring)
  : result jsstring :=
  match this_lucid this with
  | None => Throw not_initialized
  | Some lucid =>
      txSignBuilder <- Lucid.fromTx lucid unsignedTxCbor ;;
      signedTx <- Lucid.sign_withWallet_complete txSignBuilder ;;
      Lucid.submit signedTx
  end.

End WithLibraries.

End Enforcer.

(* ================================================================== *)
(** * scripts/deploy-devnet.ts: the validator of the blueprint *)
(* ================================================================== *)

Module Deploy.

(** What [getValidatorInfo] returns. *)
Record ValidatorInfo : Type := {
  compiledCode : jsstring;
  hash : jsstring;
  address : jsstring
}.

(** [getValidatorInfo(blueprint)], of the validators of the blueprint;
    [hash.slice(0, 56)] is the first 56 code units of the hash. *)
Definition getValidatorInfo (validators : list Blueprint.Validator)
  : result ValidatorInfo :=
  match find (fun v => includes (Blueprint.title v) (js "spend")) validators with
  | None => Throw (Error (js "Spend validator not found in blueprint"))
  | Some spendValidator =>
      Ok {| compiledCode := Blueprint.compiledCode spendValidator;
            hash := Blueprint.hash spendValidator;
            address := js "addr_test1w"
                       ++ firstn 56 (Blueprint.hash spendValidator) |}
  end.

End Deploy.

(* ================================================================== *)
(** * Vocabulary of the statements *)
(* ================================================================== *)

(** ** Text *)

(** Bytes and Unicode scalar values. *)
Definition is_byte (b : Z) : Prop := 0 <= b < 256.

Definition is_scalar (cp : Z) : Prop :=
  0 <= cp < 0xD800 \/ 0xE000 <= cp < 0x110000.

(** [s.isWellFormed()]: every code unit is in range and every surrogate is
    half of a pair; these are the strings that are Unicode text, the ones
    UTF-8 can write. *)
Fixpoint isWellFormed (s : jsstring) : bool :=
  match s with
  | [] => true
  | c :: s' =>
      (0 <=? c) && (c <? 0x10000) &&
      (if is_lead c then
         match s' with
         | [] => false
         | d :: s'' => is_trail d && isWellFormed s''
         end
       else negb (is_trail c) && isWellFormed s')
  end.

(** [sub] occurs in [s]. *)
Definition occurs_in (sub s : jsstring) : Prop :=
  exists before after, s = before ++ sub ++ after.

(** A message mentions a word when it contains it, letter case apart. *)
Definition mentions (message word : jsstring) : bool :=
  includes (toLowerCase message) word.

(** ** The validator *)

(** The three conditions of the validator, as the specification words them. *)
Definition ephemeral_prefix : jsstring := js "did:key:z".

Definition identity_ok (policy : SPALPolicy) (request : ValidationRequest) : Prop :=
  ephemeralRequired (identityLinkage policy) = true ->
  exists rest, requesterDid request = ephemeral_prefix ++ rest.

Definition payment_ok (policy : SPALPolicy) (request : ValidationRequest) : Prop :=
  minPayment policy > 0 -> paymentAmount request >= minPayment policy.

Definition proof_ok (policy : SPALPolicy) (request : ValidationRequest) : Prop :=
  requiredProofHash policy <> [] -> proofReference request <> [].

(** The three checks failing, as booleans, and the message of the payment
    check. *)
Definition identity_fails (policy : SPALPolicy) (request : ValidationRequest) : bool :=
  ephemeralRequired (identityLinkage policy)
  && negb (startsWith (requesterDid request) ephemeral_prefix).

Definition payment_fails (policy : SPALPolicy) (request : ValidationRequest) : bool :=
  (0 <? minPayment policy) && (paymentAmount request <? minPayment policy).

Definition proof_fails (policy : SPALPolicy) (request : ValidationRequest) : bool :=
  truthy (requiredProofHash policy) && negb (truthy (proofReference request)).

Definition payment_message (policy : SPALPolicy) (request : ValidationRequest)
  : jsstring :=
  js "Insufficient payment: required " ++ bigint_toString (minPayment policy)
  ++ js ", got " ++ bigint_toString (paymentAmount request).

(** ** Policies and their trees *)

(** A policy with another [id], with another [contextScope]. *)
Definition with_id (i : jsstring) (policy : SPALPolicy) : SPALPolicy :=
  {| id := i;
     ownerPkh := ownerPkh policy;
     minPayment := minPayment policy;
     maxRetentionMs := maxRetentionMs policy;
     identityLinkage := identityLinkage policy;
     requiredProofHash := requiredProofHash policy;
     contextScope := contextScope policy |}.

Definition with_contextScope (scope : jsstring) (policy : SPALPolicy) : SPALPolicy :=
  {| id := id policy;
     ownerPkh := ownerPkh policy;
     minPayment := minPayment policy;
     maxRetentionMs := maxRetentionMs policy;
     identityLinkage := identityLinkage policy;
     requiredProofHash := requiredProofHash policy;
     contextScope := scope |}.

(** The tree of a policy whose retention is the integer [retention]. *)
Definition policyTree (policy : SPALPolicy) (retention : Z) : Data :=
  Constr 0 [
    Bytes (ownerPkh policy);
    Integer (minPayment policy);
    Integer retention;
    buildIdentityLinkage (identityLinkage policy);
    Bytes (requiredProofHash policy);
    Bytes (stringToHex (contextScope policy))
  ].

(** The library reads back the tree [d] as it wrote it: [Data.to] returns a
    text, and [Data.from] of that text is [d]. *)
Definition reads_back {codec : DataCodec} (d : Data) : Prop :=
  exists cbor, Data_to d = Ok cbor /\ Data_from cbor = Ok d.

(** [deserializeDatum(serializeDatum(policy))] *)
Definition decode_encode {codec : DataCodec} (policy : SPALPolicy)
  : parsed SPALPolicy :=
  match serializeDatum policy with
  | Ok cbor => deserializeDatum cbor
  | Throw e => Raised e
  end.

(** ** Values of the tests *)

(** The policy and the request of [tests/spal-enforcer.test.ts]. *)
Definition testPolicy : SPALPolicy :=
  {| id := js "spal:did:pci:cardano:test:health";
     ownerPkh := js "abcd1234abcd1234abcd1234abcd1234abcd1234abcd1234abcd1234";
     minPayment := 0;
     maxRetentionMs := Int 86400000;
     identityLinkage := {| ephemeralRequired := true;
                           proofOfRootAllowed := true;
                           zkContinuityAllowed := false |};
     requiredProofHash := js "";
     contextScope := js "medical/allergies" |}.

Definition validRequest : ValidationRequest :=
  {| policyId := js "spal:did:pci:cardano:test:health";
     requesterDid := js "did:key:z6MkhaXgBZDvotDkL5257faiztiGiC2QtKLGpbnnEGta2doK";
     proofReference := js "";
     accessTime := Int 1704067200000;
     paymentAmount := 0 |}.

(** A policy that asks for a payment and a proof, with the owner, the scope
    and the retention given, and a request that pays, with the proof
    reference and the time given. *)
Definition paidPolicy (owner scope : jsstring) (retention : number) : SPALPolicy :=
  {| id := js "spal:other";
     ownerPkh := owner;
     minPayment := 1000000;
     maxRetentionMs := retention;
     identityLinkage := identityLinkage testPolicy;
     requiredProofHash := js "abcd1234abcd1234";
     contextScope := scope |}.

Definition paidRequest (proof : jsstring) (time : number) : ValidationRequest :=
  {| policyId := js "spal:other";
     requesterDid := requesterDid validRequest;
     proofReference := proof;
     accessTime := time;
     paymentAmount := 1000000 |}.

(** A request with a persistent DID that pays nothing. *)
Definition webRequest : ValidationRequest :=
  {| policyId := policyId validRequest;
     requesterDid := js "did:web:example.com:user:abc123";
     proofReference := js "";
     accessTime := accessTime validRequest;
     paymentAmount := 0 |}.

(** The tree that [buildAccessRedeemer] builds for [validRequest]. *)
Definition testRedeemer : Data :=
  Constr 0 [
    Bytes (stringToHex (requesterDid validRequest));
    Bytes (js "");
    Integer 1704067200000;
    Integer 0
  ].

(** An identity-linkage node whose three leaves have indices that are
    neither 0 nor 1. *)
Definition oddLinkage : Data :=
  Constr 0 [Constr 2 []; Constr 7 [Integer 5]; Constr (-1) []].


Definition bomPolicy : SPALPolicy :=
  with_contextScope (0xFEFF :: js "medical/allergies") testPolicy.

Definition financePolicy : SPALPolicy :=
  with_contextScope (js "finance/income") testPolicy.

(** ** Hexadecimal text and code units *)

(** A UTF-16 code unit. *)
Definition is_code_unit (c : Z) : Prop := 0 <= c < 0x10000.

(** A digit of lowercase hexadecimal text: [0-9a-f]. *)
Definition is_lower_hex (c : Z) : bool :=
  ((48 <=? c) && (c <=? 57)) || ((97 <=? c) && (c <=? 102)).




(** The bytes [bs] in lowercase hexadecimal, two digits a byte. *)
Definition hex_lower (bs : list Z) : jsstring :=
  flat_map (fun b => [hex_digit (b / 16); hex_digit (b mod 16)]) bs.

(** [hex] is a hexadecimal text of the bytes [bs]: two digits a byte, each
    digit in either case. *)
Inductive hex_of : list Z -> jsstring -> Prop :=
  | hex_of_nil : hex_of [] []
  | hex_of_cons : forall b bs c1 c2 hex,
      hex_value c1 = Some (b / 16) ->
      hex_value c2 = Some (b mod 16) ->
      hex_of bs hex ->
      hex_of (b :: bs) (c1 :: c2 :: hex).

(** What the decoder holds between two bytes: nothing, or the start of a
    sequence that can only end on a scalar value. *)
Definition utf8_state_ok (st : utf8_state) : Prop :=
  bytes_needed st = 0
  \/ (0x80 <= lower_boundary st /\ upper_boundary st <= 0xBF
      /\ ((bytes_needed st = 1 /\ bytes_seen st = 0 /\ 2 <= code_point st <= 31)
          \/ (bytes_needed st = 2 /\ bytes_seen st = 0
              /\ 0 <= code_point st <= 15
              /\ (code_point st = 0 -> 0xA0 <= lower_boundary st)
              /\ (code_point st = 13 -> upper_boundary st <= 0x9F))
          \/ (bytes_needed st = 2 /\ bytes_seen st = 1
              /\ 0x20 <= code_point st <= 0x3FF
              /\ ~ 0x360 <= code_point st <= 0x37F)
          \/ (bytes_needed st = 3 /\ bytes_seen st = 0
              /\ 0 <= code_point st <= 4
              /\ (code_point st = 0 -> 0x90 <= lower_boundary st)
              /\ (code_point st = 4 -> upper_boundary st <= 0x8F))
          \/ (bytes_needed st = 3 /\ bytes_seen st = 1
              /\ 0x10 <= code_point st <= 0x10F)
          \/ (bytes_needed st = 3 /\ bytes_seen st = 2
              /\ 0x400 <= code_point st <= 0x43FF))).

(** ** Requests, redeemers and the errors of the parsers *)

(** The request [request] with [i] as policy identifier. *)
Definition with_policyId (i : jsstring) (request : ValidationRequest)
  : ValidationRequest :=
  {| policyId := i;
     requesterDid := requesterDid request;
     proofReference := proofReference request;
     accessTime := accessTime request;
     paymentAmount := paymentAmount request |}.

(** The tree of the redeemer of a request whose access time is the integer
    [time]. *)
Definition redeemerTree (request : ValidationRequest) (time : Z) : Data :=
  Constr 0 [
    Bytes (stringToHex (requesterDid request));
    Bytes (proofReference request);
    Integer time;
    Integer (paymentAmount request)
  ].

(** The errors the parsers of the module throw. *)
Definition policy_parse_errors (e : exn) : Prop :=
  e = Error (js "Invalid PolicyDatum data: expected Constr")
  \/ (exists n, n <> 6%nat /\
        e = Error (js "Invalid PolicyDatum data: expected 6 fields, got "
                   ++ length_toString n))
  \/ e = Error (js "Invalid IdentityLinkage data: expected Constr")
  \/ (exists n, n <> 3%nat /\
        e = Error (js "Invalid IdentityLinkage data: expected 3 fields, got "
                   ++ length_toString n))
  \/ e = Error (js "Invalid Bool data: expected Constr")
  \/ e = TypeError.

Definition linkage_parse_errors (e : exn) : Prop :=
  e = Error (js "Invalid IdentityLinkage data: expected Constr")
  \/ (exists n, n <> 3%nat /\
        e = Error (js "Invalid IdentityLinkage data: expected 3 fields, got "
                   ++ length_toString n))
  \/ e = Error (js "Invalid Bool data: expected Constr").

(** ** Providers and enforcers *)

(** The URLs for which [createProvider] takes the local devnet. *)
Definition is_local (url : jsstring) : Prop :=
  occurs_in (js "localhost") url \/ occurs_in (js "127.0.0.1") url.

(** The entry of [findPolicyUtxos] for the output [u] with [policy] as what
    its datum was decoded to. *)
Definition found_entry (u : Lucid.UTxO) (policy : unchecked SPALPolicy)
  : PolicyUtxo.t :=
  {| PolicyUtxo.txHash := Lucid.txHash u;
     PolicyUtxo.outputIndex := Int (Lucid.outputIndex u);
     PolicyUtxo.datum := policy;
     PolicyUtxo.lovelace := Lucid.lovelace (Lucid.assets u) |}.

(** What an output contributes to the result of [findPolicyUtxos]: one
    entry when it carries a datum, a string that is not empty, from which
    [deserializeDatum] returns without throwing; nothing otherwise. *)
Definition found_entries {codec : DataCodec} (u : Lucid.UTxO)
  : list PolicyUtxo.t :=
  match Lucid.datum u with
  | Some (c :: cbor) =>
      match deserializeDatum (c :: cbor) with
      | Parsed policy => [found_entry u (Typed policy)]
      | IllTyped => [found_entry u Untyped]
      | Raised _ => []
      end
  | _ => []
  end.

(** The output that holds a policy at the script address. *)
Definition policy_output (scriptAddress datumCbor : jsstring) : Lucid.TxStep :=
  Lucid.pay_ToAddressWithData scriptAddress (Lucid.inline datumCbor)
    {| Lucid.lovelace := 2000000; Lucid.units := [] |}.

(** The steps of the validation transaction before its outputs. *)
Definition spend_steps (targetUtxo : Lucid.UTxO) (redeemerCbor : jsstring)
  (validator : Lucid.Script) (owner : jsstring) : Lucid.TxBuilder :=
  [Lucid.collectFrom [targetUtxo] redeemerCbor;
   Lucid.attach_SpendingValidator validator;
   Lucid.addSignerKey owner].

(** The validator that [initLucid] makes of a script. *)
Definition spend_validator (script : CompiledScript) : Lucid.Script :=
  {| Lucid.type := Lucid.PlutusV3; Lucid.script := cborHex script |}.

(** The title [fromBlueprint] looks for, and the script it makes of a
    validator of the blueprint. *)
Definition spend_title : jsstring := js "spal.spal.spend".

Definition blueprint_script (v : Blueprint.Validator) : CompiledScript :=
  {| cborHex := Blueprint.compiledCode v;
     hash := Blueprint.hash v;
     address := None |}.

(** The enforcers a program can hold: a new one, and what [initLucid] leaves
    of one, whether it returned or threw. *)
Inductive reachable {sdk : Lucid.SDK} (script : CompiledScript)
  : Enforcer.t -> Prop :=
  | reachable_new : reachable script (Enforcer.new script)
  | reachable_initLucid : forall this config,
      reachable script this ->
      reachable script (fst (Enforcer.initLucid this config)).

(** ** A chain for the tests *)

(** A double of the library over a chain that holds the outputs [chain]. *)
Definition chain_sdk (chain : list Lucid.UTxO) : Lucid.SDK :=
  {| Lucid.LucidEvolution := unit;
     Lucid.Credential := jsstring;
     Lucid.TxSignBuilder := Lucid.TxBuilder;
     Lucid.TxSigned := Lucid.TxBuilder;
     Lucid.Lucid := fun _ _ => Ok tt;
     Lucid.validatorToAddress := fun _ v => Ok (js "addr_test1w" ++ Lucid.script v);
     Lucid.keyHashToCredential := fun keyHash => keyHash;
     Lucid.credentialToAddress := fun _ c => Ok (js "addr_test1v" ++ c);
     Lucid.utxosAt := fun _ a =>
       Ok (filter (fun u => str_eqb (Lucid.address u) a) chain);
     Lucid.complete := fun _ builder => Ok builder;
     Lucid.tx_toString := fun _ => js "84a400";
     Lucid.fromTx := fun _ _ => Ok [];
     Lucid.sign_withWallet_complete := fun tx => Ok tx;
     Lucid.submit := fun _ => Ok (js "5f1a") |}.

(** A compiled script. *)
Definition testScript : CompiledScript :=
  {| cborHex := js "590a4c01"; hash := js "e1f2a3b4"; address := None |}.

(** The datum of a policy as the reference codec writes it. *)
Definition testDatumCbor (policy : SPALPolicy) (retention : Z) : jsstring :=
  CBOR.toHex (CBOR.item (policyTree policy retention)).

(** An output at the address of [testScript] that carries the datum
    [datum]. *)
Definition scriptOutput (hash : jsstring) (index : Z) (datum : option jsstring)
  : Lucid.UTxO :=
  {| Lucid.txHash := hash;
     Lucid.outputIndex := index;
     Lucid.address := js "addr_test1w590a4c01";
     Lucid.assets := {| Lucid.lovelace := 2000000; Lucid.units := [] |};
     Lucid.datumHash := None;
     Lucid.datum := datum;
     Lucid.scriptRef := None |}.

(** A tree with six fields whose first is an integer where [parsePolicyDatum]
    takes a byte array for the owner. *)
Definition strayTree : Data :=
  Constr 0 [Integer 7; Integer 0; Integer 1;
            buildIdentityLinkage (identityLinkage testPolicy);
            Bytes (js ""); Bytes (js "")].

(** A chain with four outputs at the script: one without datum, one whose
    datum is not a policy, one whose datum is [strayTree], one that holds
    [testPolicy]. *)
Definition testChain : list Lucid.UTxO :=
  [scriptOutput (js "aa01") 0 None;
   scriptOutput (js "aa01") 1 (Some (js "182a"));
   scriptOutput (js "aa01") 2 (Some (CBOR.toHex (CBOR.item strayTree)));
   scriptOutput (js "bb02") 0 (Some (testDatumCbor testPolicy 86400000))].

(** The enforcer of [testScript] after [initLucid] on the local devnet. *)
Definition testEnforcer : Enforcer.t (sdk := chain_sdk testChain) :=
  fst (Enforcer.initLucid (sdk := chain_sdk testChain)
         (Enforcer.new (sdk := chain_sdk testChain) testScript)
         (getDefaultConfig Custom)).

(** The entries of [findPolicyUtxos] for the last two outputs of
    [testChain]. *)
Definition strayEntry : PolicyUtxo.t :=
  found_entry (scriptOutput (js "aa01") 2 (Some (CBOR.toHex (CBOR.item strayTree))))
    Untyped.

Definition testEntry : PolicyUtxo.t :=
  found_entry (scriptOutput (js "bb02") 0 (Some (testDatumCbor testPolicy 86400000)))
    (Typed (with_id (js "") testPolicy)).

(** A policy that asks for a payment to the owner of [testPolicy], and a
    request that pays it and brings a proof. *)
Definition ownerPolicy : SPALPolicy :=
  paidPolicy (ownerPkh testPolicy) (js "medical/allergies") (Int 86400000).

Definition proofRequest : ValidationRequest :=
  paidRequest (js "c0ffee") (Int 1704067200000).

(** A blueprint with two validators. *)
Definition testBlueprint : list Blueprint.Validator :=
  [{| Blueprint.title := js "spal.spal.else";
      Blueprint.compiledCode := js "590a4c01";
      Blueprint.hash := js "e1f2a3b4" |};
   {| Blueprint.title := js "spal.spal.spend";
      Blueprint.compiledCode := js "590a4c01";
      Blueprint.hash := js "e1f2a3b4" |}].





(* ================================================================== *)
(** * Properties of the validator *)
(* ================================================================== *)

Import SPALEnforcer.

Lemma startsWith_spec : forall search s,
  startsWith s search = true <-> exists rest, s = search ++ rest.
Proof.
  induction search as [|c search IH]; intros s; simpl.
  - split; [intros _; exists s; reflexivity | intros _; reflexivity].
  - destruct s as [|d s].
    + split; [discriminate | intros [rest H]; discriminate].
    + rewrite andb_true_iff, Z.eqb_eq, IH. split.
      * intros [-> [rest ->]]. exists rest. reflexivity.
      * intros [rest H]. injection H as -> ->. split; [reflexivity | eauto].
Qed.

Lemma includes_spec : forall sub s, includes s sub = true <-> occurs_in sub s.
Proof.
  intros sub s. unfold occurs_in. induction s as [|c s IH]; cbn [includes].
  - rewrite orb_false_r, startsWith_spec. split.
    + intros [rest H]. exists [], rest. exact H.
    + intros (before & after & H). destruct before; [| discriminate H].
      exists after. exact H.
  - rewrite orb_true_iff, startsWith_spec, IH. split.
    + intros [[rest H] | (before & after & H)].
      * exists [], rest. exact H.
      * exists (c :: before), after. rewrite H. reflexivity.
    + intros (before & after & H). destruct before as [|c' before].
      * left. exists after. exact H.
      * right. injection H as -> ->. exists before, after. reflexivity.
Qed.

Lemma str_length_zero : forall s, (str_length s =? 0) = negb (truthy s).
Proof. destruct s; reflexivity. Qed.

Lemma str_length_pos : forall s, (0 <? str_length s) = truthy s.
Proof. destruct s; reflexivity. Qed.

Lemma validate_cascade : forall policy request,
  validate policy request =
  if identity_fails policy request then
    rejected (js "Ephemeral DID (did:key) required for this policy")
  else if payment_fails policy request then
    rejected (payment_message policy request)
  else if proof_fails policy request then
    rejected (js "Proof reference required but not provided")
  else accepted.
Proof.
  intros policy request.
  unfold validate, identity_fails, payment_fails, proof_fails, payment_message,
    ephemeral_prefix.
  rewrite !str_length_pos, str_length_zero.
  destruct (ephemeralRequired (identityLinkage policy));
    destruct (startsWith (requesterDid request) (js "did:key:z"));
    destruct (0 <? minPayment policy);
    destruct (paymentAmount request <? minPayment policy);
    destruct (truthy (requiredProofHash policy));
    destruct (truthy (proofReference request)); reflexivity.
Qed.

Lemma identity_fails_spec : forall policy request,
  identity_fails policy request = false <-> identity_ok policy request.
Proof.
  intros policy request. unfold identity_fails, identity_ok.
  rewrite <- startsWith_spec.
  destruct (ephemeralRequired (identityLinkage policy));
    destruct (startsWith (requesterDid request) ephemeral_prefix); simpl;
    split; intros H; try reflexivity; try discriminate; auto.
  discriminate (H eq_refl).
Qed.

Lemma payment_fails_spec : forall policy request,
  payment_fails policy request = false <-> payment_ok policy request.
Proof.
  intros policy request. unfold payment_fails, payment_ok.
  destruct (Z.ltb_spec 0 (minPayment policy));
    destruct (Z.ltb_spec (paymentAmount request) (minPayment policy)); simpl;
    split; intros; try reflexivity; try discriminate; lia.
Qed.

Lemma proof_fails_spec : forall policy request,
  proof_fails policy request = false <-> proof_ok policy request.
Proof.
  intros policy request. unfold proof_fails, proof_ok.
  destruct (requiredProofHash policy); destruct (proofReference request); simpl;
    split; intros H; try reflexivity; try discriminate; try congruence.
  exfalso. apply H; [discriminate | reflexivity].
Qed.

(** C1.  [validate] returns [{ valid: true }] exactly when the three
    conditions hold: the requester's DID starts with the ephemeral prefix
    [did:key:z] if the policy requires an ephemeral identity; the payment is
    at least [minPayment] if [minPayment > 0]; the proof reference is not
    empty if [requiredProofHash] is not empty.  The result is then the object
    [{ valid: true }] with no error. *)
Theorem validate_accepts_iff : forall policy request,
  (validate policy request = accepted <->
   identity_ok policy request /\ payment_ok policy request
   /\ proof_ok policy request)
  /\ (valid (validate policy request) = true <->
      validate policy request = accepted).
Proof.
  intros policy request.
  rewrite validate_cascade, <- identity_fails_spec, <- payment_fails_spec,
    <- proof_fails_spec.
  destruct (identity_fails policy request), (payment_fails policy request),
    (proof_fails policy request); simpl;
    (split; split; intros H;
     repeat match goal with H : _ /\ _ |- _ => destruct H end;
     try reflexivity; try discriminate; auto).
Qed.

(** C7, as the code has it.  The checks run in the order identity, payment,
    proof, and the first one that fails gives the reason, which is the
    [error] of the result: without the ephemeral prefix it is "Ephemeral DID
    (did:key) required for this policy", whatever the payment and the proof;
    with the identity check passed, an insufficient payment gives the reason
    that holds both amounts in decimal; with these two passed, a missing
    proof reference gives "Proof reference required but not provided"; when
    all three pass the result is valid and has no reason.  The reasons
    mention "Ephemeral", "payment" and "Proof", the first and the last with
    a capital. *)
Theorem validate_first_failure : forall policy request,
  (~ identity_ok policy request ->
   validate policy request =
   rejected (js "Ephemeral DID (did:key) required for this policy")
   /\ valid (validate policy request) = false
   /\ error (validate policy request)
      = Some (js "Ephemeral DID (did:key) required for this policy"))
  /\ (identity_ok policy request -> ~ payment_ok policy request ->
      validate policy request = rejected (payment_message policy request)
      /\ valid (validate policy request) = false
      /\ error (validate policy request) = Some (payment_message policy request)
      /\ occurs_in (bigint_toString (minPayment policy))
           (payment_message policy request)
      /\ occurs_in (bigint_toString (paymentAmount request))
           (payment_message policy request))
  /\ (identity_ok policy request -> payment_ok policy request ->
      ~ proof_ok policy request ->
      validate policy request =
      rejected (js "Proof reference required but not provided")
      /\ valid (validate policy request) = false
      /\ error (validate policy request)
         = Some (js "Proof reference required but not provided"))
  /\ (identity_ok policy request -> payment_ok policy request ->
      proof_ok policy request ->
      validate policy request = accepted
      /\ valid (validate policy request) = true
      /\ error (validate policy request) = None)
  /\ occurs_in (js "Ephemeral")
       (js "Ephemeral DID (did:key) required for this policy")
  /\ occurs_in (js "payment") (payment_message policy request)
  /\ occurs_in (js "Proof") (js "Proof reference required but not provided")
  /\ mentions (js "Ephemeral DID (did:key) required for this policy")
       (js "ephemeral") = true
  /\ mentions (payment_message policy request) (js "payment") = true
  /\ mentions (js "Proof reference required but not provided")
       (js "proof") = true.
Proof.
  intros policy request.
  rewrite validate_cascade, <- identity_fails_spec, <- payment_fails_spec,
    <- proof_fails_spec.
  split; [| split; [| split; [| split]]].
  - intros H.
    destruct (identity_fails policy request); [| now elim H].
    split; [| split]; reflexivity.
  - intros Hid Hpay. rewrite Hid.
    destruct (payment_fails policy request); [| now elim Hpay].
    split; [reflexivity |]. split; [reflexivity |]. split; [reflexivity |].
    split.
    + exists (js "Insufficient payment: required "),
        (js ", got " ++ bigint_toString (paymentAmount request)).
      reflexivity.
    + exists (js "Insufficient payment: required "
              ++ bigint_toString (minPayment policy) ++ js ", got "), [].
      unfold payment_message. rewrite app_nil_r, <- !app_assoc. reflexivity.
  - intros Hid Hpay Hproof. rewrite Hid, Hpay.
    destruct (proof_fails policy request); [| now elim Hproof].
    split; [| split]; reflexivity.
  - intros Hid Hpay Hproof. rewrite Hid, Hpay, Hproof.
    split; [| split]; reflexivity.
  - split; [exists [], (js " DID (did:key) required for this policy");
             reflexivity |].
    split; [exists (js "Insufficient "),
             (js ": required " ++ bigint_toString (minPayment policy)
              ++ js ", got " ++ bigint_toString (paymentAmount request));
             reflexivity |].
    split; [exists [], (js " reference required but not provided");
             reflexivity |].
    repeat split.
Qed.

Lemma validate_first_failure_witness :
  error (validate (paidPolicy (js "abcd") (js "medical/allergies") (Int 1))
           webRequest)
  = Some (js "Ephemeral DID (did:key) required for this policy").
Proof.
  apply (proj1 (validate_first_failure
                  (paidPolicy (js "abcd") (js "medical/allergies") (Int 1))
                  webRequest)).
  intros H. destruct (H eq_refl) as [rest Hrest].
  vm_compute in Hrest. discriminate Hrest.
Defined.

(** C7, as the specification states it, fails on the wording of the reasons:
    the reason of an identity failure (scenario B) does not contain
    "ephemeral" and that of a proof failure does not contain "proof"; the
    code writes both words with a capital. *)
Lemma reasons_are_capitalised :
  error (validate testPolicy webRequest)
  = Some (js "Ephemeral DID (did:key) required for this policy")
  /\ ~ occurs_in (js "ephemeral")
         (js "Ephemeral DID (did:key) required for this policy")
  /\ error (validate (paidPolicy (js "abcd") (js "medical/allergies") (Int 1))
              (paidRequest (js "") (Int 1)))
     = Some (js "Proof reference required but not provided")
  /\ ~ occurs_in (js "proof") (js "Proof reference required but not provided").
Proof.
  split; [reflexivity |]. split; [| split; [reflexivity |]];
    intros H; apply includes_spec in H; vm_compute in H; discriminate H.
Qed.

(** C9.  The outcome does not depend on what the validator never checks:
    two policy and request pairs that agree on [identityLinkage],
    [minPayment], [requiredProofHash], [requesterDid] and [paymentAmount],
    and whose proof references are both empty or both not, get the same
    result, whatever their [id], [ownerPkh], [maxRetentionMs],
    [contextScope], [policyId], [accessTime] and the content of the proof
    references. *)
Theorem validate_ignores_unchecked_fields : forall policy1 policy2 request1 request2,
  identityLinkage policy1 = identityLinkage policy2 ->
  minPayment policy1 = minPayment policy2 ->
  requiredProofHash policy1 = requiredProofHash policy2 ->
  requesterDid request1 = requesterDid request2 ->
  paymentAmount request1 = paymentAmount request2 ->
  (proofReference request1 = [] <-> proofReference request2 = []) ->
  validate policy1 request1 = validate policy2 request2.
Proof.
  intros policy1 policy2 request1 request2 Hlink Hmin Hhash Hdid Hpay Hproof.
  rewrite !validate_cascade.
  unfold identity_fails, payment_fails, proof_fails, payment_message.
  rewrite Hlink, Hmin, Hhash, Hdid, Hpay.
  replace (truthy (proofReference request1))
    with (truthy (proofReference request2)); [reflexivity |].
  destruct (proofReference request1), (proofReference request2); simpl;
    try reflexivity.
  - destruct Hproof as [H _]. discriminate (H eq_refl).
  - destruct Hproof as [_ H]. discriminate (H eq_refl).
Qed.

Lemma validate_ignores_unchecked_fields_witness :
  validate (paidPolicy (js "00ff") (js "medical/allergies") (Int 1))
           (paidRequest (js "proof_hash_xyz123") (Int 5))
  = validate (paidPolicy (js "abcd") (js "finance/income") NonInt)
             (paidRequest (js "ref") (Int 1704067200000)).
Proof.
  apply (validate_ignores_unchecked_fields
           (paidPolicy (js "00ff") (js "medical/allergies") (Int 1))
           (paidPolicy (js "abcd") (js "finance/income") NonInt)
           (paidRequest (js "proof_hash_xyz123") (Int 5))
           (paidRequest (js "ref") (Int 1704067200000)));
    try reflexivity.
  simpl. split; discriminate.
Defined.

(* ================================================================== *)
(** * Properties of the built-ins: hexadecimal text, UTF-8, UTF-16 *)
(* ================================================================== *)

Lemma below_16 : forall d, 0 <= d < 16 ->
  In d [0; 1; 2; 3; 4; 5; 6; 7; 8; 9; 10; 11; 12; 13; 14; 15].
Proof. intros d H. simpl. lia. Qed.

#[local] Ltac enumerate H :=
  apply below_16 in H; simpl in H;
  repeat (destruct H as [<- | H]); [.. | contradiction].

Lemma hex_pair_parse : forall hi lo, 0 <= hi < 16 -> 0 <= lo < 16 ->
  parseInt16 [hex_digit hi; hex_digit lo] = Some (hi * 16 + lo)
  /\ is_line_terminator (hex_digit hi) = false
  /\ is_line_terminator (hex_digit lo) = false.
Proof.
  intros hi lo Hhi Hlo. enumerate Hhi; enumerate Hlo; repeat split.
Qed.

Lemma padStart2_toString16 : forall b, is_byte b ->
  padStart2 (toString16 b) = [hex_digit (b / 16); hex_digit (b mod 16)].
Proof.
  intros b Hb. unfold is_byte in Hb. unfold toString16.
  destruct (Z.ltb_spec b 16).
  - rewrite Z.div_small, Z.mod_small by lia. reflexivity.
  - reflexivity.
Qed.

Lemma hex_bytes_roundtrip : forall bs, Forall is_byte bs ->
  map (fun byte => ToUint8 (parseInt16 byte))
      (match_dot_1_2 (flat_map (fun b => padStart2 (toString16 b)) bs)) = bs.
Proof.
  induction 1 as [|b bs Hb Hbs IH]; [reflexivity |].
  cbn [flat_map]. rewrite (padStart2_toString16 b Hb).
  unfold is_byte in Hb.
  destruct (hex_pair_parse (b / 16) (b mod 16)) as (Hparse & Hhi & Hlo);
    [Z.div_mod_to_equations; lia | Z.div_mod_to_equations; lia |].
  cbn [app match_dot_1_2]. rewrite Hhi, Hlo. cbn [map]. rewrite Hparse, IH.
  cbn [ToUint8]. f_equal. Z.div_mod_to_equations; lia.
Qed.

#[local] Ltac zdm := Z.div_mod_to_equations; lia.

#[local] Ltac decide_comparison :=
  match goal with
  | |- context [?a <=? ?b] =>
      first [ replace (a <=? b) with true by (symmetry; apply Z.leb_le; zdm)
            | replace (a <=? b) with false by (symmetry; apply Z.leb_gt; zdm) ]
  | |- context [?a <? ?b] =>
      first [ replace (a <? b) with true by (symmetry; apply Z.ltb_lt; zdm)
            | replace (a <? b) with false by (symmetry; apply Z.ltb_ge; zdm) ]
  | |- context [?a =? ?b] =>
      first [ replace (a =? b) with true by (symmetry; apply Z.eqb_eq; zdm)
            | replace (a =? b) with false by (symmetry; apply Z.eqb_neq; zdm) ]
  | |- context [?a =? ?b] => destruct (Z.eqb_spec a b)
  end.

#[local] Ltac run_decoder :=
  repeat (progress (unfold utf8_step, utf8_lead, utf8_start;
                    cbn [app utf8_decode andb orb code_point bytes_needed
                         bytes_seen lower_boundary upper_boundary])
          || decide_comparison).

Lemma utf8_encode_cp_bytes : forall cp, is_scalar cp ->
  Forall is_byte (utf8_encode_cp cp).
Proof.
  intros cp Hs. unfold is_scalar in Hs. unfold utf8_encode_cp, is_byte.
  destruct (Z.ltb_spec cp 0x80); [| destruct (Z.ltb_spec cp 0x800);
    [| destruct (Z.ltb_spec cp 0x10000)]];
    repeat constructor; zdm.
Qed.

Lemma utf8_decode_encode_cp : forall cp rest, is_scalar cp ->
  utf8_decode utf8_start (utf8_encode_cp cp ++ rest)
  = cp :: utf8_decode utf8_start rest.
Proof.
  intros cp rest Hs. unfold is_scalar in Hs. unfold utf8_encode_cp.
  destruct (Z.ltb_spec cp 0x80); [| destruct (Z.ltb_spec cp 0x800);
    [| destruct (Z.ltb_spec cp 0x10000)]].
  - run_decoder. reflexivity.
  - run_decoder. f_equal. zdm.
  - run_decoder; f_equal; zdm.
  - run_decoder; f_equal; zdm.
Qed.

Lemma utf8_roundtrip : forall cps, Forall is_scalar cps ->
  utf8_decode utf8_start (flat_map utf8_encode_cp cps) = cps.
Proof.
  induction 1 as [|cp cps Hcp Hcps IH]; [reflexivity |].
  cbn [flat_map]. rewrite (utf8_decode_encode_cp cp _ Hcp), IH. reflexivity.
Qed.

Lemma utf8_encode_bytes : forall cps, Forall is_scalar cps ->
  Forall is_byte (flat_map utf8_encode_cp cps).
Proof.
  induction 1 as [|cp cps Hcp Hcps IH]; [constructor |].
  cbn [flat_map]. apply Forall_app. split; [apply utf8_encode_cp_bytes |]; assumption.
Qed.

Lemma surrogate_pair_value : forall c d,
  is_lead c = true -> is_trail d = true ->
  let cp := 0x10000 + (c - 0xD800) * 0x400 + (d - 0xDC00) in
  is_scalar cp /\ utf16_encode_cp cp = [c; d] /\ cp <> 0xFEFF.
Proof.
  intros c d Hc Hd cp. subst cp. unfold is_lead, is_trail in *.
  apply andb_true_iff in Hc, Hd. rewrite !Z.leb_le in Hc, Hd.
  unfold is_scalar, utf16_encode_cp.
  destruct (Z.ltb_spec (65536 + (c - 55296) * 1024 + (d - 56320)) 65536);
    [lia |].
  repeat split; [lia | | lia].
  f_equal; [| f_equal]; zdm.
Qed.

Lemma lone_code_unit_value : forall c,
  0 <= c < 0x10000 -> is_lead c = false -> is_trail c = false ->
  is_scalar c /\ utf16_encode_cp c = [c].
Proof.
  intros c Hc Hl Ht. unfold is_lead, is_trail in *.
  apply andb_false_iff in Hl, Ht. rewrite !Z.leb_gt in Hl, Ht.
  unfold is_scalar, utf16_encode_cp.
  destruct (Z.ltb_spec c 65536); [| lia]. split; [lia | reflexivity].
Qed.

(** What [isWellFormed] says of a string that is not empty. *)
Lemma isWellFormed_cons : forall c s,
  isWellFormed (c :: s) = true ->
  (is_lead c = true /\ exists d s', s = d :: s' /\ is_trail d = true
                                   /\ isWellFormed s' = true)
  \/ (is_lead c = false /\ is_trail c = false /\ 0 <= c < 0x10000
      /\ isWellFormed s = true).
Proof.
  intros c s H. cbn [isWellFormed] in H.
  apply andb_true_iff in H. destruct H as [Hrange H].
  apply andb_true_iff in Hrange. rewrite Z.leb_le, Z.ltb_lt in Hrange.
  destruct (is_lead c).
  - left. split; [reflexivity |]. destruct s as [|d s']; [discriminate |].
    apply andb_true_iff in H. exists d, s'. tauto.
  - right. apply andb_true_iff in H. destruct H as [Ht H].
    apply negb_true_iff in Ht. tauto.
Qed.

Lemma to_scalar_values_well_formed : forall s,
  isWellFormed s = true ->
  Forall is_scalar (to_scalar_values s)
  /\ flat_map utf16_encode_cp (to_scalar_values s) = s.
Proof.
  intros s.
  assert (H : forall n s, (List.length s <= n)%nat -> isWellFormed s = true ->
              Forall is_scalar (to_scalar_values s)
              /\ flat_map utf16_encode_cp (to_scalar_values s) = s);
    [| exact (H (List.length s) s (le_n _))].
  clear s. induction n as [|n IH]; intros s Hlen Hwf.
  - destruct s; [split; [constructor | reflexivity] | simpl in Hlen; lia].
  - destruct s as [|c s]; [split; [constructor | reflexivity] |].
    destruct (isWellFormed_cons _ _ Hwf)
      as [(Hl & d & s' & -> & Ht & Hwf') | (Hl & Ht & Hc & Hwf')].
    + cbn [to_scalar_values]. rewrite Hl, Ht.
      destruct (surrogate_pair_value _ _ Hl Ht) as (Hs & He & _).
      destruct (IH s') as [IH1 IH2]; [simpl in Hlen; lia | assumption |].
      split; [constructor; assumption |].
      cbn [flat_map]. rewrite He, IH2. reflexivity.
    + cbn [to_scalar_values]. rewrite Hl, Ht.
      destruct (lone_code_unit_value c Hc Hl Ht) as (Hs & He).
      destruct (IH s) as [IH1 IH2]; [simpl in Hlen; lia | assumption |].
      split; [constructor; assumption |].
      cbn [flat_map]. rewrite He, IH2. reflexivity.
Qed.

Lemma strip_bom_to_scalar_values : forall s,
  isWellFormed s = true ->
  strip_bom (to_scalar_values s) = to_scalar_values (strip_bom s).
Proof.
  intros [|c s] Hwf; [reflexivity |].
  destruct (isWellFormed_cons _ _ Hwf)
    as [(Hl & d & s' & -> & Ht & Hwf') | (Hl & Ht & Hc & Hwf')].
  - cbn [to_scalar_values strip_bom]. rewrite Hl, Ht.
    destruct (surrogate_pair_value _ _ Hl Ht) as (_ & _ & Hne).
    cbn [strip_bom].
    apply Z.eqb_neq in Hne. rewrite Hne.
    replace (c =? 0xFEFF) with false.
    + cbn [to_scalar_values]. rewrite Hl, Ht. reflexivity.
    + symmetry. apply Z.eqb_neq. intros ->. discriminate Hl.
  - cbn [to_scalar_values strip_bom]. rewrite Hl, Ht. cbn [strip_bom].
    destruct (c =? 0xFEFF); [reflexivity |].
    cbn [to_scalar_values]. rewrite Hl, Ht. reflexivity.
Qed.

Lemma strip_bom_well_formed : forall s,
  isWellFormed s = true -> isWellFormed (strip_bom s) = true.
Proof.
  intros [|c s] Hwf; [reflexivity |]. cbn [strip_bom].
  destruct (Z.eqb_spec c 0xFEFF) as [-> |]; [| assumption].
  destruct (isWellFormed_cons _ _ Hwf) as [(Hl & _) | (_ & _ & _ & H)];
    [discriminate Hl | assumption].
Qed.

(** [hexToString] after [stringToHex] gives a well-formed string back, less
    a U+FEFF at its start. *)
Lemma hexToString_stringToHex : forall s,
  isWellFormed s = true -> hexToString (stringToHex s) = strip_bom s.
Proof.
  intros s Hwf. unfold hexToString, stringToHex, TextEncoder_encode,
    TextDecoder_decode.
  destruct (to_scalar_values_well_formed s Hwf) as [Hs _].
  rewrite hex_bytes_roundtrip by (apply utf8_encode_bytes; assumption).
  rewrite utf8_roundtrip by assumption.
  rewrite strip_bom_to_scalar_values by assumption.
  apply to_scalar_values_well_formed, strip_bom_well_formed, Hwf.
Qed.

Lemma stringToHex_injective : forall s1 s2,
  isWellFormed s1 = true -> isWellFormed s2 = true ->
  stringToHex s1 = stringToHex s2 -> s1 = s2.
Proof.
  intros s1 s2 H1 H2 H. unfold stringToHex, TextEncoder_encode in H.
  destruct (to_scalar_values_well_formed s1 H1) as [Hs1 Hr1].
  destruct (to_scalar_values_well_formed s2 H2) as [Hs2 Hr2].
  apply (f_equal (fun hex => map (fun byte => ToUint8 (parseInt16 byte))
                                 (match_dot_1_2 hex))) in H.
  rewrite !hex_bytes_roundtrip in H by (apply utf8_encode_bytes; assumption).
  apply (f_equal (utf8_decode utf8_start)) in H.
  rewrite !utf8_roundtrip in H by assumption.
  rewrite <- Hr1, <- Hr2, H. reflexivity.
Qed.

(** [hexToString] inverts [stringToHex] on Unicode text, but for a U+FEFF at
    the start, which it drops; [stringToHex] tells two Unicode texts
    apart. *)
Theorem hexToString_inverts_stringToHex : forall s,
  isWellFormed s = true ->
  hexToString (stringToHex s) = strip_bom s
  /\ (forall s', isWellFormed s' = true ->
      stringToHex s = stringToHex s' -> s = s').
Proof.
  intros s Hwf. split; [exact (hexToString_stringToHex s Hwf) |].
  intros s' Hwf' H. exact (stringToHex_injective s s' Hwf Hwf' H).
Qed.

Lemma hexToString_inverts_stringToHex_witness :
  hexToString (stringToHex [0xD83D; 0xDE00; 0xE9; 0x20AC; 0x2F; 0x61])
  = [0xD83D; 0xDE00; 0xE9; 0x20AC; 0x2F; 0x61].
Proof.
  apply (proj1 (hexToString_inverts_stringToHex
                  [0xD83D; 0xDE00; 0xE9; 0x20AC; 0x2F; 0x61] eq_refl)).
Defined.

(* ================================================================== *)
(** * Properties of the datum builders and parsers *)
(* ================================================================== *)

Lemma or_empty_id : forall s, or_empty s = s.
Proof. destruct s; reflexivity. Qed.

Lemma buildPolicyDatum_Int : forall policy z,
  maxRetentionMs policy = Int z ->
  buildPolicyDatum policy = Ok (policyTree policy z).
Proof.
  intros policy z H. unfold buildPolicyDatum, policyTree.
  rewrite H, or_empty_id. reflexivity.
Qed.

Lemma buildPolicyDatum_NonInt : forall policy,
  maxRetentionMs policy = NonInt ->
  buildPolicyDatum policy = Throw RangeError.
Proof.
  intros policy H. unfold buildPolicyDatum. rewrite H. reflexivity.
Qed.

Lemma dataToBool_boolToData : forall b, dataToBool (boolToData b) = Ok b.
Proof. destruct b; reflexivity. Qed.

Lemma parseIdentityLinkage_build : forall linkage,
  parseIdentityLinkage (buildIdentityLinkage linkage) = Ok linkage.
Proof.
  intros [[] [] []]; reflexivity.
Qed.

(** C3, as the code has it.  [false] is built as [Constr(0, [])] and [true]
    as [Constr(1, [])]; the leaf decoder [dataToBool] reads a constructor
    node as [true] when its index is 1 and as [false] for every other index,
    whatever its fields, and throws only for a node that is not a
    constructor.  Reading what was built gives the boolean back. *)
Theorem boolean_leaf_encoding :
  (boolToData false = Constr 0 [] /\ boolToData true = Constr 1 [])
  /\ (forall index fields, dataToBool (Constr index fields) = Ok (index =? 1))
  /\ (forall d, (forall index fields, d <> Constr index fields) ->
      dataToBool d = Throw (Error (js "Invalid Bool data: expected Constr")))
  /\ (forall b, dataToBool (boolToData b) = Ok b).
Proof.
  split; [split; reflexivity |].
  split; [reflexivity |].
  split; [| exact dataToBool_boolToData].
  intros d H. destruct d; try reflexivity.
  now elim (H index fields).
Qed.

(** C3, as the specification states it, fails: a leaf of index 2 (or 7, or
    -1) is not rejected, it is read as [false]. *)
Lemma dataToBool_accepts_other_index :
  dataToBool (Constr 2 []) = Ok false
  /\ (forall e, dataToBool (Constr 2 []) <> Throw e)
  /\ parseIdentityLinkage oddLinkage
     = Ok {| ephemeralRequired := false;
             proofOfRootAllowed := false;
             zkContinuityAllowed := false |}.
Proof.
  split; [reflexivity |]. split; [| reflexivity].
  intros e H. discriminate H.
Qed.

(** C4, as the code has it.  A constructor node with a number of fields
    other than 3 is rejected by [parseIdentityLinkage], and one with a number
    of fields other than 6 by [parsePolicyDatum], each with the error whose
    message gives the expected and the actual count; a policy node with six
    fields whose fourth has not three fields is rejected with the error of
    the identity linkage. *)
Theorem wrong_field_count_rejected : forall index fields,
  (List.length fields <> 3%nat ->
   parseIdentityLinkage (Constr index fields)
   = Throw (Error (js "Invalid IdentityLinkage data: expected 3 fields, got "
                   ++ length_toString (List.length fields))))
  /\ (List.length fields <> 6%nat ->
      parsePolicyDatum (Constr index fields)
      = Raised (Error (js "Invalid PolicyDatum data: expected 6 fields, got "
                       ++ length_toString (List.length fields))))
  /\ (forall f0 f1 f2 f4 f5 index3,
      List.length fields <> 3%nat ->
      parsePolicyDatum (Constr index [f0; f1; f2; Constr index3 fields; f4; f5])
      = Raised (Error (js "Invalid IdentityLinkage data: expected 3 fields, got "
                       ++ length_toString (List.length fields)))).
Proof.
  intros index fields.
  assert (H3 : forall i, List.length fields <> 3%nat ->
               parseIdentityLinkage (Constr i fields)
               = Throw (Error (js "Invalid IdentityLinkage data: expected 3 fields, got "
                               ++ length_toString (List.length fields)))).
  { intros i H. destruct fields as [|a [|b [|c [|d l]]]]; try reflexivity.
    now elim H. }
  split; [apply H3 |]. split.
  - intros H.
    destruct fields as [|a [|b [|c [|d [|e [|f [|g l]]]]]]]; try reflexivity.
    now elim H.
  - intros f0 f1 f2 f4 f5 index3 H.
    unfold parsePolicyDatum. rewrite (H3 index3 H). reflexivity.
Qed.

Lemma wrong_field_count_rejected_witness :
  parseIdentityLinkage testRedeemer
  = Throw (Error (js "Invalid IdentityLinkage data: expected 3 fields, got 4"))
  /\ parsePolicyDatum oddLinkage
     = Raised (Error (js "Invalid PolicyDatum data: expected 6 fields, got 3")).
Proof.
  split.
  - apply (proj1 (wrong_field_count_rejected 0
             [Bytes (stringToHex (requesterDid validRequest));
              Bytes (js ""); Integer 1704067200000; Integer 0])).
    simpl. discriminate.
  - apply (proj1 (proj2 (wrong_field_count_rejected 0
             [Constr 2 []; Constr 7 [Integer 5]; Constr (-1) []]))).
    simpl. discriminate.
Defined.

(** C4, as the specification states it, fails for the access request: the
    module has no decoder for it.  Its two tree decoders both reject the
    four-field tree that [buildAccessRedeemer] builds for a request, so
    neither of them enforces a four-field shape. *)
Lemma no_decoder_takes_the_redeemer :
  buildAccessRedeemer validRequest = Ok testRedeemer
  /\ parsePolicyDatum testRedeemer
     = Raised (Error (js "Invalid PolicyDatum data: expected 6 fields, got 4"))
  /\ parseIdentityLinkage testRedeemer
     = Throw (Error (js "Invalid IdentityLinkage data: expected 3 fields, got 4")).
Proof. repeat split. Qed.

(** The integers a double holds exactly include the safe integers. *)
Lemma safe_integer_representable : forall z,
  Z.abs z < 2 ^ 53 -> representable z.
Proof.
  intros z H. unfold representable, round53.
  assert (Hlog : Z.log2 (Z.abs z) < 53).
  { destruct (Z.eq_dec (Z.abs z) 0) as [-> | Hnz]; [reflexivity |].
    apply Z.log2_lt_pow2; lia. }
  destruct (Z.leb_spec (Z.log2 (Z.abs z) - 52) 0); [| lia].
  split; [reflexivity |].
  assert (2 ^ 53 < 2 ^ 1024) by (apply Z.pow_lt_mono_r; lia). lia.
Qed.

Lemma Number_representable : forall z, representable z -> Number z = Int z.
Proof.
  intros z [Hr Hb]. unfold Number. rewrite Hr.
  destruct (Z.ltb_spec (Z.abs z) (2 ^ 1024)); [| lia].
  f_equal. lia.
Qed.

Lemma buildIdentityLinkage_injective : forall l1 l2,
  buildIdentityLinkage l1 = buildIdentityLinkage l2 -> l1 = l2.
Proof.
  intros l1 l2 H. apply (f_equal parseIdentityLinkage) in H.
  rewrite !parseIdentityLinkage_build in H. congruence.
Qed.

Lemma parsePolicyDatum_policyTree : forall policy z,
  parsePolicyDatum (policyTree policy z)
  = Parsed {| id := js "";
              ownerPkh := ownerPkh policy;
              minPayment := minPayment policy;
              maxRetentionMs := Number z;
              identityLinkage := identityLinkage policy;
              requiredProofHash := requiredProofHash policy;
              contextScope := hexToString (stringToHex (contextScope policy)) |}.
Proof.
  intros policy z. unfold policyTree, parsePolicyDatum.
  rewrite parseIdentityLinkage_build. reflexivity.
Qed.


Section Codec.

Context {codec : DataCodec}.

Lemma decode_encode_reads_back : forall policy z,
  maxRetentionMs policy = Int z ->
  reads_back (policyTree policy z) ->
  decode_encode policy = parsePolicyDatum (policyTree policy z).
Proof.
  intros policy z Hz (cbor & Hto & Hfrom).
  unfold decode_encode, serializeDatum, deserializeDatum.
  rewrite (buildPolicyDatum_Int policy z Hz). cbn [bind].
  rewrite Hto, Hfrom. reflexivity.
Qed.

(** [deserializeDatum] never throws on what [serializeDatum] returned: when
    the library reads back the tree it wrote, the policy is parsed, and every
    field but [id], the retention and the context scope is the one encoded;
    the retention is [Number] of the integer encoded and the scope is
    [hexToString] of its hexadecimal text. *)
Theorem deserialize_after_serialize : forall policy z,
  maxRetentionMs policy = Int z ->
  reads_back (policyTree policy z) ->
  decode_encode policy
  = Parsed {| id := js "";
              ownerPkh := ownerPkh policy;
              minPayment := minPayment policy;
              maxRetentionMs := Number z;
              identityLinkage := identityLinkage policy;
              requiredProofHash := requiredProofHash policy;
              contextScope := hexToString (stringToHex (contextScope policy)) |}.
Proof.
  intros policy z Hz Hcodec.
  rewrite (decode_encode_reads_back policy z Hz Hcodec).
  apply parsePolicyDatum_policyTree.
Qed.

(** The round trip of a policy (C2, where it holds).  For a policy whose
    retention is an integer, whose context scope is Unicode text that does
    not start with U+FEFF, and whose tree the library reads back as written,
    [deserializeDatum] does not throw on what [serializeDatum] returns and
    gives the policy back, with the empty string as [id]. *)
Theorem decode_encode_roundtrip : forall policy z,
  maxRetentionMs policy = Int z ->
  representable z ->
  isWellFormed (contextScope policy) = true ->
  (forall rest, contextScope policy <> 0xFEFF :: rest) ->
  reads_back (policyTree policy z) ->
  decode_encode policy = Parsed (with_id (js "") policy).
Proof.
  intros policy z Hz Hrep Hwf Hbom Hcodec.
  rewrite (decode_encode_reads_back policy z Hz Hcodec), parsePolicyDatum_policyTree.
  rewrite (Number_representable z Hrep), (hexToString_stringToHex _ Hwf), <- Hz.
  unfold with_id. do 2 f_equal.
  destruct (contextScope policy) as [|c s]; [reflexivity |].
  cbn [strip_bom]. destruct (Z.eqb_spec c 0xFEFF) as [-> |]; [| reflexivity].
  now elim (Hbom s).
Qed.

(** C2, where the code departs from it.  A policy whose context scope is
    U+FEFF followed by the text [scope] is serialized and deserialized
    without error, but the policy that comes back has [scope] as context
    scope: the U+FEFF is lost, so [contextScope] is not given back. *)
Theorem leading_bom_is_lost : forall policy z scope,
  maxRetentionMs policy = Int z ->
  representable z ->
  contextScope policy = 0xFEFF :: scope ->
  isWellFormed scope = true ->
  reads_back (policyTree policy z) ->
  decode_encode policy = Parsed (with_id (js "") (with_contextScope scope policy))
  /\ scope <> contextScope policy.
Proof.
  intros policy z scope Hz Hrep Hscope Hwf Hcodec.
  rewrite (decode_encode_reads_back policy z Hz Hcodec), parsePolicyDatum_policyTree.
  rewrite (Number_representable z Hrep), <- Hz.
  rewrite hexToString_stringToHex by (rewrite Hscope; exact Hwf).
  rewrite Hscope. split; [reflexivity |].
  intros H. apply (f_equal (@List.length Z)) in H. simpl in H. lia.
Qed.

(** C6.  [id] takes no part in the encoded form: changing the [id] of a
    policy changes neither the tree [buildPolicyDatum] builds nor what
    [serializeDatum] returns, and a policy that [parsePolicyDatum] or
    [deserializeDatum] returns always has the empty string as [id], whatever
    was encoded. *)
Theorem id_not_encoded : forall policy i,
  buildPolicyDatum (with_id i policy) = buildPolicyDatum policy
  /\ serializeDatum (with_id i policy) = serializeDatum policy
  /\ decode_encode (with_id i policy) = decode_encode policy
  /\ (forall data parsed_policy,
      parsePolicyDatum data = Parsed parsed_policy -> id parsed_policy = js "")
  /\ (forall cbor parsed_policy,
      deserializeDatum cbor = Parsed parsed_policy -> id parsed_policy = js "").
Proof.
  intros policy i.
  assert (Hparse : forall data parsed_policy,
             parsePolicyDatum data = Parsed parsed_policy ->
             id parsed_policy = js "").
  { intros data q H. unfold parsePolicyDatum in H.
    destruct data as [| | | |index fields]; try discriminate.
    destruct fields as [|f0 [|f1 [|f2 [|f3 [|f4 [|f5 [|f6 l]]]]]]];
      try discriminate.
    destruct (parseIdentityLinkage f3); try discriminate.
    destruct f5; try discriminate.
    destruct f0; try discriminate. destruct f1; try discriminate.
    destruct f4; try discriminate.
    injection H as <-. reflexivity. }
  repeat split; try reflexivity; try exact Hparse.
  intros cbor q H. unfold deserializeDatum in H.
  destruct (Data_from cbor); [eauto | discriminate].
Qed.

End Codec.

(** C10.  The parsers never look at the constructor index of a record node:
    with any index [index], [parsePolicyDatum] and [parseIdentityLinkage]
    give what they give with index 0; a policy node with six fields of the
    expected kinds is accepted, and so is an identity-linkage node with three
    constructor fields, whatever the indices. *)
Theorem record_index_ignored : forall index fields,
  parsePolicyDatum (Constr index fields) = parsePolicyDatum (Constr 0 fields)
  /\ parseIdentityLinkage (Constr index fields)
     = parseIdentityLinkage (Constr 0 fields)
  /\ (forall i0 i1 i2 g0 g1 g2,
      parseIdentityLinkage (Constr index [Constr i0 g0; Constr i1 g1; Constr i2 g2])
      = Ok {| ephemeralRequired := (i0 =? 1);
              proofOfRootAllowed := (i1 =? 1);
              zkContinuityAllowed := (i2 =? 1) |})
  /\ (forall owner payment retention index3 i0 i1 i2 g0 g1 g2 proof scope,
      parsePolicyDatum
        (Constr index [Bytes owner; Integer payment; Integer retention;
                       Constr index3 [Constr i0 g0; Constr i1 g1; Constr i2 g2];
                       Bytes proof; Bytes scope])
      = Parsed {| id := js "";
                  ownerPkh := owner;
                  minPayment := payment;
                  maxRetentionMs := Number retention;
                  identityLinkage :=
                    {| ephemeralRequired := (i0 =? 1);
                       proofOfRootAllowed := (i1 =? 1);
                       zkContinuityAllowed := (i2 =? 1) |};
                  requiredProofHash := proof;
                  contextScope := hexToString scope |}).
Proof.
  intros index fields. repeat split.
Qed.

(* ================================================================== *)
(** * The properties at the policies of the tests, with the reference codec *)
(* ================================================================== *)

Lemma representable_day : representable 86400000.
Proof. split; vm_compute; reflexivity. Defined.

Lemma reads_back_testPolicy :
  reads_back (codec := CBOR.codec) (policyTree testPolicy 86400000).
Proof.
  exists (CBOR.toHex (CBOR.item (policyTree testPolicy 86400000))).
  split; vm_compute; reflexivity.
Defined.

Lemma deserialize_after_serialize_witness :
  decode_encode (codec := CBOR.codec) financePolicy
  = Parsed (with_id (js "") financePolicy).
Proof.
  apply (deserialize_after_serialize (codec := CBOR.codec) financePolicy 86400000).
  - reflexivity.
  - exists (CBOR.toHex (CBOR.item (policyTree financePolicy 86400000))).
    split; vm_compute; reflexivity.
Defined.

Lemma decode_encode_roundtrip_witness :
  decode_encode (codec := CBOR.codec) testPolicy
  = Parsed (with_id (js "") testPolicy).
Proof.
  apply (decode_encode_roundtrip (codec := CBOR.codec) testPolicy 86400000).
  - reflexivity.
  - exact representable_day.
  - vm_compute. reflexivity.
  - intros rest H. vm_compute in H. discriminate H.
  - exact reads_back_testPolicy.
Defined.

Lemma leading_bom_is_lost_witness :
  decode_encode (codec := CBOR.codec) bomPolicy
  = Parsed (with_id (js "") testPolicy)
  /\ js "medical/allergies" <> contextScope bomPolicy.
Proof.
  apply (leading_bom_is_lost (codec := CBOR.codec) bomPolicy
           86400000 (js "medical/allergies")).
  - reflexivity.
  - exact representable_day.
  - reflexivity.
  - vm_compute. reflexivity.
  - exists (CBOR.toHex (CBOR.item (policyTree bomPolicy 86400000))).
    split; vm_compute; reflexivity.
Defined.

(** Why the context scopes must be Unicode text for the encoding to tell
    them apart: surrogates without partner are all written as U+FFFD. *)
Lemma unpaired_surrogates_encode_alike :
  stringToHex [0xD800] = stringToHex [0xDFFF]
  /\ stringToHex [0xD800] = js "efbfbd".
Proof. split; reflexivity. Qed.

(* ================================================================== *)
(** * The hexadecimal text of [stringToHex] and [hexToString] *)
(* ================================================================== *)

Lemma to_scalar_values_scalar : forall s,
  Forall is_code_unit s ->
  Forall is_scalar (to_scalar_values s)
  /\ (List.length (to_scalar_values s) <= List.length s)%nat.
Proof.
  intros s.
  assert (H : forall n s, (List.length s <= n)%nat -> Forall is_code_unit s ->
              Forall is_scalar (to_scalar_values s)
              /\ (List.length (to_scalar_values s) <= List.length s)%nat);
    [| exact (H (List.length s) s (le_n _))].
  clear s. induction n as [|n IH]; intros s Hlen Hs.
  - destruct s; [split; [constructor | apply le_n] | cbn [List.length] in Hlen; lia].
  - destruct s as [|c s]; [split; [constructor | apply le_n] |].
    inversion Hs as [|c' s' Hc Hs']; subst. unfold is_code_unit in Hc.
    assert (Hfffd : is_scalar 0xFFFD) by (unfold is_scalar; lia).
    cbn [to_scalar_values].
    destruct (is_lead c) eqn:Hl.
    + destruct s as [|d s]; [split; [constructor; [assumption | constructor] | cbn [List.length]; lia] |].
      destruct (is_trail d) eqn:Ht.
      * inversion Hs' as [|d' s'' Hd Hs'']; subst.
        destruct (IH s) as [IH1 IH2]; [cbn [List.length] in Hlen; lia | assumption |].
        destruct (surrogate_pair_value c d Hl Ht) as (Hsc & _ & _).
        split; [constructor; assumption | cbn [List.length] in *; lia].
      * destruct (IH (d :: s)) as [IH1 IH2]; [cbn [List.length] in *; lia | assumption |].
        split; [constructor; assumption | cbn [List.length] in *; lia].
    + destruct (IH s) as [IH1 IH2]; [cbn [List.length] in Hlen; lia | assumption |].
      destruct (is_trail c) eqn:Ht.
      * split; [constructor; assumption | cbn [List.length] in *; lia].
      * destruct (lone_code_unit_value c Hc Hl Ht) as [Hsc _].
        split; [constructor; assumption | cbn [List.length] in *; lia].
Qed.

Lemma TextEncoder_encode_bytes : forall s,
  Forall is_code_unit s -> Forall is_byte (TextEncoder_encode s).
Proof.
  intros s Hs. apply utf8_encode_bytes, to_scalar_values_scalar, Hs.
Qed.

Lemma hex_digit_is_lower_hex : forall d, 0 <= d < 16 ->
  is_lower_hex (hex_digit d) = true.
Proof.
  intros d Hd. unfold is_lower_hex, hex_digit.
  destruct (Z.ltb_spec d 10).
  - apply orb_true_iff. left. apply andb_true_iff. rewrite !Z.leb_le. lia.
  - apply orb_true_iff. right. apply andb_true_iff. rewrite !Z.leb_le. lia.
Qed.

Lemma stringToHex_hex_lower : forall s,
  Forall is_code_unit s -> stringToHex s = hex_lower (TextEncoder_encode s).
Proof.
  intros s Hs. unfold stringToHex, hex_lower.
  pose proof (TextEncoder_encode_bytes s Hs) as Hb.
  induction Hb as [|b bs Hb Hbs IH]; [reflexivity |].
  cbn [flat_map]. rewrite (padStart2_toString16 b Hb), IH. reflexivity.
Qed.

Lemma hex_lower_digits : forall bs, Forall is_byte bs ->
  forallb is_lower_hex (hex_lower bs) = true
  /\ List.length (hex_lower bs) = (2 * List.length bs)%nat.
Proof.
  induction 1 as [|b bs Hb Hbs [IH1 IH2]]; [split; reflexivity |].
  unfold is_byte in Hb. unfold hex_lower in *. cbn [flat_map app forallb].
  rewrite IH1, !hex_digit_is_lower_hex by zdm.
  split; [reflexivity | cbn [List.length]; lia].
Qed.

(** The length of the UTF-8 text of a code point. *)
Lemma utf8_encode_cp_length : forall cp,
  (1 <= List.length (utf8_encode_cp cp) <= 4)%nat
  /\ (cp < 0x10000 -> (List.length (utf8_encode_cp cp) <= 3)%nat).
Proof.
  intros cp. unfold utf8_encode_cp.
  destruct (Z.ltb_spec cp 0x80); [cbn [List.length]; lia |].
  destruct (Z.ltb_spec cp 0x800); [cbn [List.length]; lia |].
  destruct (Z.ltb_spec cp 0x10000); simpl; lia.
Qed.

(** [stringToHex] writes lowercase hexadecimal.  For every string [s] of
    code units, [stringToHex(s)] holds only the digits [0-9a-f], two for
    each byte of the UTF-8 text of [s], so an even number of them and at most
    six for a code unit of [s]; it is empty only when [s] is. *)
Theorem stringToHex_is_lowercase_hex : forall s,
  Forall is_code_unit s ->
  forallb is_lower_hex (stringToHex s) = true
  /\ List.length (stringToHex s) = (2 * List.length (TextEncoder_encode s))%nat
  /\ (List.length (stringToHex s) <= 6 * List.length s)%nat
  /\ (s <> [] -> stringToHex s <> []).
Proof.
  intros s Hs.
  rewrite (stringToHex_hex_lower s Hs).
  destruct (hex_lower_digits _ (TextEncoder_encode_bytes s Hs)) as [H1 H2].
  split; [exact H1 |]. split; [exact H2 |]. rewrite H2.
  assert (Hlen : forall n s, (List.length s <= n)%nat -> Forall is_code_unit s ->
            (List.length (TextEncoder_encode s) <= 3 * List.length s)%nat
            /\ (s <> [] -> TextEncoder_encode s <> [])).
  { clear. unfold TextEncoder_encode.
    assert (Hcons : forall cp cps,
              List.length (flat_map utf8_encode_cp (cp :: cps))
              = (List.length (utf8_encode_cp cp)
                 + List.length (flat_map utf8_encode_cp cps))%nat).
    { intros cp cps. cbn [flat_map]. apply length_app. }
    assert (Hne : forall cp cps, flat_map utf8_encode_cp (cp :: cps) <> []).
    { intros cp cps H. apply (f_equal (@List.length Z)) in H.
      rewrite Hcons in H. cbn [List.length] in H.
      pose proof (utf8_encode_cp_length cp). lia. }
    induction n as [|n IH]; intros s Hlen Hs.
    - destruct s; [split; [simpl; lia | congruence] | cbn [List.length] in Hlen; lia].
    - destruct s as [|c s]; [split; [simpl; lia | congruence] |].
      inversion Hs as [|c' s' Hc Hs']; subst. unfold is_code_unit in Hc.
      destruct (utf8_encode_cp_length 0xFFFD) as [_ Hfffd].
      specialize (Hfffd ltac:(lia)).
      cbn [to_scalar_values].
      destruct (is_lead c) eqn:Hl.
      + destruct s as [|d s].
        * split; [| intros _; apply Hne].
          rewrite Hcons. cbn [flat_map List.length]. lia.
        * destruct (is_trail d) eqn:Ht.
          -- inversion Hs' as [|d' s'' Hd Hs'']; subst.
             destruct (IH s) as [IH1 _];
               [cbn [List.length] in Hlen; lia | assumption |].
             split; [| intros _; apply Hne].
             rewrite Hcons.
             pose proof (utf8_encode_cp_length
                           (0x10000 + (c - 0xD800) * 0x400 + (d - 0xDC00))).
             cbn [List.length]. lia.
          -- destruct (IH (d :: s)) as [IH1 _];
               [cbn [List.length] in *; lia | assumption |].
             split; [| intros _; apply Hne].
             rewrite Hcons. cbn [List.length] in *. lia.
      + destruct (IH s) as [IH1 _];
          [cbn [List.length] in Hlen; lia | assumption |].
        destruct (is_trail c) eqn:Ht.
        * split; [| intros _; apply Hne].
          rewrite Hcons. cbn [List.length]. lia.
        * split; [| intros _; apply Hne].
          rewrite Hcons. destruct (utf8_encode_cp_length c) as [Ha Hb].
          specialize (Hb ltac:(lia)). cbn [List.length]. lia. }
  destruct (Hlen (List.length s) s (le_n _) Hs) as [H3 H4].
  split; [lia |].
  intros Hne Hempty. apply (f_equal (@List.length Z)) in Hempty.
  rewrite H2 in Hempty. cbn [List.length] in Hempty.
  specialize (H4 Hne). destruct (TextEncoder_encode s); [congruence | cbn [List.length] in Hempty; lia].
Qed.

Lemma stringToHex_is_lowercase_hex_witness :
  forallb is_lower_hex (stringToHex (js "medical/allergies")) = true
  /\ List.length (stringToHex (js "medical/allergies"))
     = (2 * List.length (TextEncoder_encode (js "medical/allergies")))%nat
  /\ (List.length (stringToHex (js "medical/allergies"))
      <= 6 * List.length (js "medical/allergies"))%nat
  /\ (js "medical/allergies" <> [] -> stringToHex (js "medical/allergies") <> []).
Proof.
  apply (stringToHex_is_lowercase_hex (js "medical/allergies")).
  repeat (constructor;
          [unfold is_code_unit; vm_compute; split; [discriminate | reflexivity] |]).
  constructor.
Defined.

Lemma hex_value_range : forall c d, hex_value c = Some d ->
  0 <= d < 16
  /\ ((48 <= c <= 57 /\ d = c - 48) \/ (97 <= c <= 102 /\ d = c - 87)
      \/ (65 <= c <= 70 /\ d = c - 55)).
Proof.
  intros c d H. unfold hex_value in H.
  destruct (Z.leb_spec 48 c); destruct (Z.leb_spec c 57); cbn [andb] in H;
    try (injection H as <-; lia);
    destruct (Z.leb_spec 97 c); destruct (Z.leb_spec c 102); cbn [andb] in H;
    try (injection H as <-; lia);
    destruct (Z.leb_spec 65 c); destruct (Z.leb_spec c 70); cbn [andb] in H;
    try (injection H as <-; lia); discriminate.
Qed.

Lemma parseInt16_pair : forall c1 c2 hi lo,
  hex_value c1 = Some hi -> hex_value c2 = Some lo ->
  parseInt16 [c1; c2] = Some (hi * 16 + lo)
  /\ is_line_terminator c1 = false /\ is_line_terminator c2 = false.
Proof.
  intros c1 c2 hi lo H1 H2.
  destruct (hex_value_range c1 hi H1) as [Hhi R1].
  destruct (hex_value_range c2 lo H2) as [Hlo R2].
  assert (Hw : forall c d, hex_value c = Some d ->
               is_white_space c = false /\ is_line_terminator c = false
               /\ (c =? 45) = false /\ (c =? 43) = false
               /\ (c =? 120) = false /\ (c =? 88) = false).
  { intros c d H. destruct (hex_value_range c d H) as [_ R].
    unfold is_white_space, is_line_terminator.
    repeat split; repeat (decide_comparison; cbn [andb orb]); reflexivity. }
  destruct (Hw c1 hi H1) as (W1 & L1 & M1 & P1 & _).
  destruct (Hw c2 lo H2) as (W2 & L2 & _ & _ & X2 & X2').
  split; [| split; assumption].
  unfold parseInt16. cbn [trim_start]. rewrite W1, M1, P1, X2, X2'.
  rewrite andb_false_r. cbn [orb hex_prefix]. rewrite H1, H2.
  f_equal. lia.
Qed.

Lemma hexToString_of_hex : forall bs hex,
  hex_of bs hex -> Forall is_byte bs ->
  map (fun byte => ToUint8 (parseInt16 byte)) (match_dot_1_2 hex) = bs.
Proof.
  induction 1 as [|b bs c1 c2 hex H1 H2 Hrest IH]; intros Hb; [reflexivity |].
  inversion Hb as [|b' bs' Hbyte Hbs]; subst. unfold is_byte in Hbyte.
  destruct (parseInt16_pair c1 c2 _ _ H1 H2) as (Hp & L1 & L2).
  cbn [match_dot_1_2]. rewrite L1, L2. cbn [map]. rewrite Hp, (IH Hbs).
  cbn [ToUint8]. f_equal. zdm.
Qed.

(** [hexToString] reads hexadecimal text in either case.  When [hex] writes
    the bytes [bs] with two digits a byte, each digit in [0-9], [a-f] or
    [A-F], [hexToString(hex)] is what [new TextDecoder().decode] gives for
    [bs]. *)
Theorem hexToString_reads_hex : forall bs hex,
  hex_of bs hex -> Forall is_byte bs ->
  hexToString hex = TextDecoder_decode bs.
Proof.
  intros bs hex Hhex Hbs. unfold hexToString.
  rewrite (hexToString_of_hex bs hex Hhex Hbs). reflexivity.
Qed.

Lemma hexToString_reads_hex_witness :
  hexToString (js "6dC3a9") = TextDecoder_decode [0x6D; 0xC3; 0xA9].
Proof.
  apply (hexToString_reads_hex [0x6D; 0xC3; 0xA9] (js "6dC3a9")).
  - repeat (apply hex_of_cons; [reflexivity | reflexivity |]). apply hex_of_nil.
  - repeat (constructor; [unfold is_byte; lia |]). constructor.
Defined.

#[local] Ltac split_comparisons :=
  repeat match goal with
    | |- context [?a <=? ?b] => destruct (Z.leb_spec a b)
    | |- context [?a <? ?b] => destruct (Z.ltb_spec a b)
    | |- context [?a =? ?b] => destruct (Z.eqb_spec a b)
    end.

Lemma utf8_lead_ok : forall b, is_byte b ->
  Forall is_scalar (fst (utf8_lead b)) /\ utf8_state_ok (snd (utf8_lead b)).
Proof.
  intros b Hb. unfold is_byte in Hb. unfold utf8_lead, utf8_start, utf8_state_ok.
  assert (Hfffd : Forall is_scalar [0xFFFD])
    by (constructor; [unfold is_scalar; lia | constructor]).
  destruct (Z.leb_spec b 0x7F); cbn [fst snd].
  { split; [| left; reflexivity].
    constructor; [unfold is_scalar; lia | constructor]. }
  destruct (Z.leb_spec 0xC2 b); destruct (Z.leb_spec b 0xDF); cbn [andb fst snd];
    try (split; [constructor | right];
         cbn [code_point bytes_needed bytes_seen lower_boundary upper_boundary];
         split; [lia |]; split; [lia |]; left; lia).
  all: destruct (Z.leb_spec 0xE0 b); destruct (Z.leb_spec b 0xEF);
    cbn [andb fst snd];
    try (split; [constructor | right];
         cbn [code_point bytes_needed bytes_seen lower_boundary upper_boundary];
         destruct (Z.eqb_spec b 0xE0); destruct (Z.eqb_spec b 0xED);
         (split; [lia |]; split; [lia |]; right; left; lia)).
  all: destruct (Z.leb_spec 0xF0 b); destruct (Z.leb_spec b 0xF4);
    cbn [andb fst snd];
    try (split; [constructor | right];
         cbn [code_point bytes_needed bytes_seen lower_boundary upper_boundary];
         destruct (Z.eqb_spec b 0xF0); destruct (Z.eqb_spec b 0xF4);
         (split; [lia |]; split; [lia |]; right; right; right; left; lia)).
  all: split; [exact Hfffd | left; reflexivity].
Qed.

Lemma utf8_step_ok : forall st b, utf8_state_ok st -> is_byte b ->
  Forall is_scalar (fst (utf8_step st b)) /\ utf8_state_ok (snd (utf8_step st b)).
Proof.
  intros st b Hst Hb. unfold utf8_step.
  destruct (Z.eqb_spec (bytes_needed st) 0) as [Hz | Hnz];
    [apply utf8_lead_ok; assumption |].
  destruct (utf8_lead_ok b Hb) as [Hl1 Hl2].
  destruct ((b <? lower_boundary st) || (upper_boundary st <? b)) eqn:Hrange.
  - destruct (utf8_lead b) as [out st']. cbn [fst snd] in *.
    split; [constructor; [unfold is_scalar; lia | assumption] | assumption].
  - apply orb_false_iff in Hrange. destruct Hrange as [Hlo Hhi].
    apply Z.ltb_ge in Hlo, Hhi.
    unfold utf8_state_ok in Hst. unfold is_byte in Hb.
    destruct Hst as [Hz | (Hlb & Hub & Hcases)]; [contradiction |].
    destruct (Z.eqb_spec (bytes_seen st + 1) (bytes_needed st)) as [He | Hne];
      cbn [fst snd].
    + split; [| left; reflexivity].
      constructor; [| constructor]. unfold is_scalar.
      destruct Hcases as [H | [H | [H | [H | [H | H]]]]]; lia.
    + split; [constructor |]. right.
      cbn [code_point bytes_needed bytes_seen lower_boundary upper_boundary].
      split; [lia |]. split; [lia |].
      destruct Hcases as [H | [H | [H | [H | [H | H]]]]].
      * exfalso. lia.
      * right. right. left. lia.
      * exfalso. lia.
      * right. right. right. right. left. lia.
      * right. right. right. right. right. lia.
      * exfalso. lia.
Qed.

Lemma utf8_decode_scalar : forall bytes st,
  utf8_state_ok st -> Forall is_byte bytes ->
  Forall is_scalar (utf8_decode st bytes).
Proof.
  induction bytes as [|b bytes IH]; intros st Hst Hb; cbn [utf8_decode].
  - destruct (bytes_needed st =? 0);
      [constructor | constructor; [unfold is_scalar; lia | constructor]].
  - inversion Hb as [|b' bs' Hbyte Hbs]; subst.
    destruct (utf8_step_ok st b Hst Hbyte) as [H1 H2].
    destruct (utf8_step st b) as [out st']. cbn [fst snd] in *.
    apply Forall_app. split; [assumption | apply IH; assumption].
Qed.

Lemma utf16_encode_cp_well_formed : forall cp s, is_scalar cp ->
  isWellFormed (utf16_encode_cp cp ++ s) = isWellFormed s.
Proof.
  intros cp s Hcp. unfold is_scalar in Hcp. unfold utf16_encode_cp.
  destruct (Z.ltb_spec cp 0x10000).
  - cbn [app isWellFormed].
    replace (0 <=? cp) with true by (symmetry; apply Z.leb_le; lia).
    replace (cp <? 0x10000) with true by (symmetry; apply Z.ltb_lt; lia).
    replace (is_lead cp) with false
      by (symmetry; unfold is_lead; apply andb_false_iff; rewrite !Z.leb_gt; lia).
    replace (is_trail cp) with false
      by (symmetry; unfold is_trail; apply andb_false_iff; rewrite !Z.leb_gt; lia).
    reflexivity.
  - set (hi := 0xD800 + (cp - 0x10000) / 0x400).
    set (lo := 0xDC00 + (cp - 0x10000) mod 0x400).
    assert (Hhi : 0xD800 <= hi <= 0xDBFF) by (subst hi; Z.div_mod_to_equations; lia).
    assert (Hlo : 0xDC00 <= lo <= 0xDFFF) by (subst lo; Z.div_mod_to_equations; lia).
    clearbody hi lo. cbn [app isWellFormed].
    replace (0 <=? hi) with true by (symmetry; apply Z.leb_le; lia).
    replace (hi <? 0x10000) with true by (symmetry; apply Z.ltb_lt; lia).
    replace (is_lead hi) with true
      by (symmetry; unfold is_lead; apply andb_true_iff; rewrite !Z.leb_le; lia).
    replace (is_trail lo) with true
      by (symmetry; unfold is_trail; apply andb_true_iff; rewrite !Z.leb_le; lia).
    reflexivity.
Qed.

Lemma utf16_encode_well_formed : forall cps,
  Forall is_scalar cps -> isWellFormed (flat_map utf16_encode_cp cps) = true.
Proof.
  induction 1 as [|cp cps Hcp Hcps IH]; [reflexivity |].
  cbn [flat_map]. rewrite (utf16_encode_cp_well_formed cp _ Hcp). exact IH.
Qed.

Lemma ToUint8_byte : forall v, is_byte (ToUint8 v).
Proof.
  intros [z|]; unfold is_byte, ToUint8; [| lia].
  apply Z.mod_pos_bound. lia.
Qed.

Lemma strip_bom_Forall : forall (P : Z -> Prop) cps,
  Forall P cps -> Forall P (strip_bom cps).
Proof.
  intros P [|cp cps] H; [constructor |]. cbn [strip_bom].
  destruct (cp =? 0xFEFF); [inversion H; assumption | assumption].
Qed.

Lemma TextDecoder_decode_well_formed : forall bytes,
  Forall is_byte bytes -> isWellFormed (TextDecoder_decode bytes) = true.
Proof.
  intros bytes Hb. unfold TextDecoder_decode.
  apply utf16_encode_well_formed, strip_bom_Forall, utf8_decode_scalar.
  - left. reflexivity.
  - assumption.
Qed.

Lemma hexToString_well_formed : forall hex,
  isWellFormed (hexToString hex) = true.
Proof.
  intros hex. unfold hexToString. apply TextDecoder_decode_well_formed.
  apply Forall_map, Forall_forall. intros chunk _. apply ToUint8_byte.
Qed.

(* ================================================================== *)
(** * Encoding: where it succeeds and what it tells apart *)
(* ================================================================== *)








Section Encoding.

Context {codec : DataCodec}.



End Encoding.







(* ================================================================== *)
(** * The parsers and the redeemer *)
(* ================================================================== *)

Lemma dataToBool_errors : forall d e,
  dataToBool d = Throw e -> e = Error (js "Invalid Bool data: expected Constr").
Proof. intros d e H. destruct d; try discriminate H; injection H as <-; reflexivity. Qed.

Lemma parseIdentityLinkage_errors : forall data e,
  parseIdentityLinkage data = Throw e -> linkage_parse_errors e.
Proof.
  intros data e H. unfold linkage_parse_errors.
  destruct data as [| | | |index fields];
    try (left; injection H as <-; reflexivity).
  destruct fields as [|f0 [|f1 [|f2 [|f3 l]]]];
    try (right; left; eexists; split; [| injection H as <-; reflexivity];
         cbn; lia).
  right. right. unfold parseIdentityLinkage in H.
  destruct (dataToBool f0) eqn:H0; cbn [bind] in H;
    [| injection H as <-; exact (dataToBool_errors f0 _ H0)].
  destruct (dataToBool f1) eqn:H1; cbn [bind] in H;
    [| injection H as <-; exact (dataToBool_errors f1 _ H1)].
  destruct (dataToBool f2) eqn:H2; cbn [bind] in H;
    [| injection H as <-; exact (dataToBool_errors f2 _ H2)].
  discriminate H.
Qed.

(** The identity linkage comes back.  [parseIdentityLinkage] returns, without
    throwing, the linkage that [buildIdentityLinkage] was given, and two
    linkages with the same tree are equal. *)
Theorem identity_linkage_roundtrip : forall linkage,
  parseIdentityLinkage (buildIdentityLinkage linkage) = Ok linkage
  /\ (forall linkage', buildIdentityLinkage linkage = buildIdentityLinkage linkage' ->
      linkage = linkage').
Proof.
  intros linkage. split; [apply parseIdentityLinkage_build |].
  apply buildIdentityLinkage_injective.
Qed.

(** The errors of [parsePolicyDatum].  When it throws, the error is one of:
    the Error for a tree that is not a constructor; the Error that gives a
    field count other than 6; one of the three Errors of
    [parseIdentityLinkage] for the fourth field (not a constructor, a field
    count other than 3, a leaf that is not a constructor); the TypeError of
    [hexToString] on a sixth field that is not a byte string. *)
Theorem parsePolicyDatum_raises_only : forall data e,
  parsePolicyDatum data = Raised e -> policy_parse_errors e.
Proof.
  intros data e H. unfold policy_parse_errors.
  destruct data as [| | | |index fields];
    try (left; injection H as <-; reflexivity).
  destruct fields as [|f0 [|f1 [|f2 [|f3 [|f4 [|f5 [|f6 l]]]]]]];
    try (right; left; eexists; split; [| injection H as <-; reflexivity];
         cbn; lia).
  unfold parsePolicyDatum in H.
  destruct (parseIdentityLinkage f3) as [linkage | e'] eqn:Hl.
  - destruct f5; try (injection H as <-; tauto).
    destruct f0; try discriminate; destruct f1; try discriminate;
      destruct f4; discriminate.
  - injection H as <-.
    destruct (parseIdentityLinkage_errors f3 e' Hl) as [He | [He | He]]; tauto.
Qed.

Lemma parsePolicyDatum_raises_only_witness :
  policy_parse_errors
    (Error (js "Invalid PolicyDatum data: expected 6 fields, got 4")).
Proof.
  apply (parsePolicyDatum_raises_only testRedeemer). reflexivity.
Defined.

Lemma parsed_contextScope_well_formed : forall data policy,
  parsePolicyDatum data = Parsed policy ->
  isWellFormed (contextScope policy) = true
  /\ hexToString (stringToHex (contextScope policy))
     = strip_bom (contextScope policy).
Proof.
  intros data policy H.
  assert (Hwf : isWellFormed (contextScope policy) = true).
  { unfold parsePolicyDatum in H.
    destruct data as [| | | |index fields]; try discriminate.
    destruct fields as [|f0 [|f1 [|f2 [|f3 [|f4 [|f5 [|f6 l]]]]]]];
      try discriminate.
    destruct (parseIdentityLinkage f3); try discriminate.
    destruct f5; try discriminate.
    destruct f0; try discriminate. destruct f1; try discriminate.
    destruct f4; try discriminate.
    injection H as <-. apply hexToString_well_formed. }
  split; [exact Hwf | apply hexToString_stringToHex, Hwf].
Qed.

Lemma buildAccessRedeemer_Int : forall request t,
  accessTime request = Int t ->
  buildAccessRedeemer request = Ok (redeemerTree request t).
Proof.
  intros request t H. unfold buildAccessRedeemer, redeemerTree.
  rewrite H, or_empty_id. reflexivity.
Qed.

Lemma parsePolicyDatum_policyTree_text : forall policy z,
  maxRetentionMs policy = Int z ->
  representable z ->
  isWellFormed (contextScope policy) = true ->
  (forall rest, contextScope policy <> 0xFEFF :: rest) ->
  parsePolicyDatum (policyTree policy z) = Parsed (with_id (js "") policy).
Proof.
  intros policy z Hz Hrep Hwf Hbom. rewrite parsePolicyDatum_policyTree.
  rewrite (Number_representable z Hrep), (hexToString_stringToHex _ Hwf), <- Hz.
  unfold with_id. do 2 f_equal.
  destruct (contextScope policy) as [|c s]; [reflexivity |].
  cbn [strip_bom]. destruct (Z.eqb_spec c 0xFEFF) as [-> |]; [| reflexivity].
  now elim (Hbom s).
Qed.

Section Redeemer.

Context {codec : DataCodec}.

(** What comes back is text.  [hexToString] returns a well-formed string
    for every argument, so the context scope of a policy that
    [parsePolicyDatum] returns is well formed; and a policy whose context
    scope is not (it holds a surrogate without partner) never comes back from
    [deserializeDatum(serializeDatum(policy))], whatever the library does. *)
Theorem decoded_scope_is_text :
  (forall hex, isWellFormed (hexToString hex) = true)
  /\ (forall data policy, parsePolicyDatum data = Parsed policy ->
      isWellFormed (contextScope policy) = true)
  /\ (forall policy, isWellFormed (contextScope policy) = false ->
      decode_encode policy <> Parsed (with_id (js "") policy)).
Proof.
  split; [exact hexToString_well_formed |]. split.
  - intros data policy H. apply (parsed_contextScope_well_formed data policy H).
  - intros policy Hwf H. unfold decode_encode, deserializeDatum in H.
    destruct (serializeDatum policy) as [cbor | e]; [| discriminate H].
    destruct (Data_from cbor) as [data | e]; [| discriminate H].
    apply parsed_contextScope_well_formed in H. destruct H as [H _].
    cbn [with_id contextScope] in H. congruence.
Qed.

(** The redeemer.  [buildAccessRedeemer] builds the tree of four fields (the
    requester's DID in hexadecimal UTF-8, the proof reference, the access
    time, the payment) when [accessTime] is an integer, and throws the
    RangeError of [BigInt()] otherwise; [policyId] is not part of the
    redeemer: neither the tree nor [serializeRedeemer] depends on it. *)
Theorem redeemer_encoding : forall request i,
  buildAccessRedeemer request
  = match accessTime request with
    | Int t => Ok (redeemerTree request t)
    | NonInt => Throw RangeError
    end
  /\ buildAccessRedeemer (with_policyId i request) = buildAccessRedeemer request
  /\ serializeRedeemer (with_policyId i request) = serializeRedeemer request.
Proof.
  intros request i. split; [| split; reflexivity].
  destruct (accessTime request) as [t|] eqn:H.
  - apply buildAccessRedeemer_Int, H.
  - unfold buildAccessRedeemer. rewrite H. reflexivity.
Qed.

(** [serializeRedeemer] tells requests apart.  Two requests that differ
    outside [policyId], with integer access times and well-formed DIDs, and
    whose trees the library reads back as written, have different
    redeemers. *)
Theorem serializeRedeemer_injective : forall request1 request2 t1 t2,
  accessTime request1 = Int t1 ->
  accessTime request2 = Int t2 ->
  isWellFormed (requesterDid request1) = true ->
  isWellFormed (requesterDid request2) = true ->
  reads_back (redeemerTree request1 t1) ->
  reads_back (redeemerTree request2 t2) ->
  with_policyId (js "") request1 <> with_policyId (js "") request2 ->
  serializeRedeemer request1 <> serializeRedeemer request2.
Proof.
  intros request1 request2 t1 t2 Ht1 Ht2 Hwf1 Hwf2
    (c1 & Hto1 & Hfrom1) (c2 & Hto2 & Hfrom2) Hdiff Heq.
  unfold serializeRedeemer in Heq.
  rewrite (buildAccessRedeemer_Int request1 t1 Ht1),
    (buildAccessRedeemer_Int request2 t2 Ht2) in Heq.
  cbn [bind] in Heq. rewrite Hto1, Hto2 in Heq. injection Heq as <-.
  assert (Htree : redeemerTree request1 t1 = redeemerTree request2 t2)
    by congruence.
  unfold redeemerTree in Htree. injection Htree as Hdid Hproof Ht Hpay.
  apply stringToHex_injective in Hdid; [| assumption | assumption].
  apply Hdiff. destruct request1, request2. unfold with_policyId. cbn in *.
  congruence.
Qed.

End Redeemer.

Lemma serializeRedeemer_injective_witness :
  serializeRedeemer (codec := CBOR.codec) validRequest
  <> serializeRedeemer (codec := CBOR.codec) webRequest.
Proof.
  apply (serializeRedeemer_injective (codec := CBOR.codec)
           validRequest webRequest 1704067200000 1704067200000).
  - reflexivity.
  - reflexivity.
  - vm_compute. reflexivity.
  - vm_compute. reflexivity.
  - exists (CBOR.toHex (CBOR.item (redeemerTree validRequest 1704067200000))).
    split; vm_compute; reflexivity.
  - exists (CBOR.toHex (CBOR.item (redeemerTree webRequest 1704067200000))).
    split; vm_compute; reflexivity.
  - intros H. vm_compute in H. discriminate H.
Defined.

(* ================================================================== *)
(** * The validator, again *)
(* ================================================================== *)

(** Paying more never hurts.  When [validate] accepts a request, it accepts
    every request of the same DID that pays at least as much and brings a
    proof reference if the first did, whatever its policy identifier and
    access time. *)
Theorem validate_monotone : forall policy request request',
  validate policy request = accepted ->
  requesterDid request' = requesterDid request ->
  paymentAmount request <= paymentAmount request' ->
  (proofReference request <> [] -> proofReference request' <> []) ->
  validate policy request' = accepted.
Proof.
  intros policy request request' H Hdid Hpay Hproof.
  rewrite validate_cascade in *.
  destruct (identity_fails policy request) eqn:Hi; [discriminate H |].
  destruct (payment_fails policy request) eqn:Hp; [discriminate H |].
  destruct (proof_fails policy request) eqn:Hr; [discriminate H |].
  assert (Hi' : identity_fails policy request' = false).
  { unfold identity_fails in *. rewrite Hdid. exact Hi. }
  assert (Hp' : payment_fails policy request' = false).
  { apply payment_fails_spec. apply payment_fails_spec in Hp.
    unfold payment_ok in *. lia. }
  assert (Hr' : proof_fails policy request' = false).
  { apply proof_fails_spec. apply proof_fails_spec in Hr.
    unfold proof_ok in *. auto. }
  rewrite Hi', Hp', Hr'. reflexivity.
Qed.

Lemma validate_monotone_witness :
  validate ownerPolicy
    {| policyId := js "spal:other";
       requesterDid := requesterDid proofRequest;
       proofReference := js "c0ffee00";
       accessTime := NonInt;
       paymentAmount := 2500000 |}
  = accepted.
Proof.
  apply (validate_monotone ownerPolicy proofRequest).
  - reflexivity.
  - reflexivity.
  - vm_compute. discriminate.
  - intros _. discriminate.
Defined.

(* ================================================================== *)
(** * Properties of lucid/provider.ts *)
(* ================================================================== *)

Lemma str_eqb_spec : forall s t, str_eqb s t = true <-> s = t.
Proof.
  induction s as [|c s IH]; intros [|d t]; cbn [str_eqb];
    try (split; [discriminate | intros H; discriminate H]);
    [split; reflexivity |].
  rewrite andb_true_iff, Z.eqb_eq, IH. split.
  - intros [-> ->]. reflexivity.
  - intros H. injection H as -> ->. split; reflexivity.
Qed.

Lemma skipn_app_exact : forall (pattern rest : jsstring),
  skipn (List.length pattern) (pattern ++ rest) = rest.
Proof. induction pattern; intros rest; [reflexivity | apply IHpattern]. Qed.

Lemma replace_absent : forall pattern replacement s,
  includes s pattern = false -> replace s pattern replacement = s.
Proof.
  intros pattern replacement. induction s as [|c s IH]; cbn [includes replace];
    intros H; apply orb_false_iff in H; destruct H as [H1 H2]; rewrite H1.
  - reflexivity.
  - rewrite (IH H2). reflexivity.
Qed.

Lemma replace_first_occurrence : forall pattern replacement s,
  includes s pattern = true ->
  exists before after,
    s = before ++ pattern ++ after
    /\ replace s pattern replacement = before ++ replacement ++ after
    /\ forall before' after', s = before' ++ pattern ++ after' ->
         (List.length before <= List.length before')%nat.
Proof.
  intros pattern replacement. induction s as [|c s IH]; cbn [includes replace];
    intros H.
  - rewrite orb_false_r in H. rewrite H.
    apply startsWith_spec in H. destruct H as [rest H].
    exists [], rest. rewrite H at 1 3. rewrite skipn_app_exact.
    split; [reflexivity |]. split; [reflexivity |].
    intros; apply Nat.le_0_l.
  - destruct (startsWith (c :: s) pattern) eqn:Hs.
    + apply startsWith_spec in Hs. destruct Hs as [rest Hs].
      exists [], rest. rewrite Hs. rewrite skipn_app_exact.
      split; [reflexivity |]. split; [reflexivity |].
      intros; apply Nat.le_0_l.
    + cbn [orb] in H. destruct (IH H) as (before & after & H1 & H2 & H3).
      exists (c :: before), after.
      split; [rewrite H1 at 1; reflexivity |].
      split; [rewrite H2; reflexivity |].
      intros before' after' H'. destruct before' as [|c' before'].
      * assert (Hs' : startsWith (c :: s) pattern = true)
          by (apply startsWith_spec; exists after'; exact H').
        congruence.
      * injection H' as _ H'. cbn [List.length].
        apply le_n_S, (H3 before' after'), H'.
Qed.

Lemma replace_length : forall pattern replacement s,
  List.length replacement = List.length pattern ->
  List.length (replace s pattern replacement) = List.length s.
Proof.
  intros pattern replacement s Hlen.
  destruct (includes s pattern) eqn:H.
  - destruct (replace_first_occurrence pattern replacement s H)
      as (b & a & H1 & H2 & _).
    rewrite H2, H1, !length_app, Hlen. reflexivity.
  - rewrite (replace_absent pattern replacement s H). reflexivity.
Qed.

(** The provider.  For a URL that holds [localhost] or [127.0.0.1],
    [createProvider] returns a Kupmios provider whatever the API key; the
    library takes its first argument as the Kupo endpoint and its second as
    the Ogmios endpoint, so the Kupo endpoint of that provider is the URL of
    the configuration and its Ogmios endpoint is that URL with its first
    [:1337] replaced by [:1442] (the URL itself when it holds none), although
    the program calls the second argument [kupoUrl].  For any other URL it
    returns a Blockfrost provider when the API key is a string that is not
    empty, and throws otherwise. *)
Theorem createProvider_choice : forall config,
  (is_local (providerUrl config) ->
   exists provider replaced,
     createProvider config = Ok provider
     /\ provider = Lucid.Kupmios (providerUrl config) replaced
     /\ Lucid.kupo_endpoint provider = Some (providerUrl config)
     /\ Lucid.ogmios_endpoint provider = Some replaced
     /\ List.length replaced = List.length (providerUrl config)
     /\ (~ occurs_in (js ":1337") (providerUrl config) ->
         replaced = providerUrl config)
     /\ (occurs_in (js ":1337") (providerUrl config) ->
         exists before after,
           providerUrl config = before ++ js ":1337" ++ after
           /\ replaced = before ++ js ":1442" ++ after
           /\ forall before' after',
                providerUrl config = before' ++ js ":1337" ++ after' ->
                (List.length before <= List.length before')%nat))
  /\ (~ is_local (providerUrl config) ->
      createProvider config
      = match apiKey config with
        | Some (c :: key) =>
            Ok (Lucid.Blockfrost (providerUrl config) (c :: key))
        | _ => Throw (Error (js "Blockfrost API key required for non-local networks"))
        end).
Proof.
  intros config. unfold is_local, createProvider.
  destruct (includes (providerUrl config) (js "localhost")
            || includes (providerUrl config) (js "127.0.0.1")) eqn:Hlocal.
  - split.
    + intros _. eexists. eexists. split; [reflexivity |].
      split; [reflexivity |]. split; [reflexivity |]. split; [reflexivity |].
      split; [apply replace_length; reflexivity |]. split.
      * intros H. apply replace_absent.
        destruct (includes (providerUrl config) (js ":1337")) eqn:E;
          [| reflexivity].
        apply includes_spec in E. contradiction.
      * intros H. apply replace_first_occurrence, includes_spec, H.
    + intros H. elim H. apply orb_true_iff in Hlocal.
      destruct Hlocal as [Hl | Hl]; apply includes_spec in Hl; tauto.
  - split.
    + intros [H | H]; apply includes_spec in H;
        apply orb_false_iff in Hlocal; destruct Hlocal; congruence.
    + intros _. destruct (apiKey config) as [[|c key]|]; reflexivity.
Qed.

(** The default configurations.  That of [Custom] gives a Kupmios provider
    whose Kupo endpoint, as the library takes it, is [http://localhost:1337]
    and whose Ogmios endpoint is [http://localhost:1442] (the program's
    comment has the two ports the other way round); those of [Preview],
    [Preprod] and [Mainnet] carry no API key, so [createProvider],
    [initializeLucid] and [initLucid] throw on them, and [initLucid] leaves
    the enforcer as it was. *)
Theorem default_configs : forall n,
  match n with
  | Custom =>
      exists provider,
        createProvider (getDefaultConfig n) = Ok provider
        /\ Lucid.kupo_endpoint provider = Some (js "http://localhost:1337")
        /\ Lucid.ogmios_endpoint provider = Some (js "http://localhost:1442")
  | _ =>
      createProvider (getDefaultConfig n)
      = Throw (Error (js "Blockfrost API key required for non-local networks"))
  end
  /\ (n <> Custom ->
      forall (sdk : Lucid.SDK) (this : Enforcer.t),
        initializeLucid (getDefaultConfig n)
        = Throw (Error (js "Blockfrost API key required for non-local networks"))
        /\ Enforcer.initLucid this (getDefaultConfig n)
           = (this, Throw (Error (js "Blockfrost API key required for non-local networks")))).
Proof.
  intros n. split.
  - destruct n; try reflexivity.
    eexists. split; [reflexivity |]. split; reflexivity.
  - intros Hn sdk this. destruct n; try (now elim Hn); split; reflexivity.
Qed.

(* ================================================================== *)
(** * Properties of the on-chain operations *)
(* ================================================================== *)

Section OnChain.

Context {sdk : Lucid.SDK} {codec : DataCodec}.

Import Enforcer.

(** [initLucid] comes first.  On a new enforcer [getScriptAddress],
    [createPolicyUtxo], [findPolicyUtxos], [buildValidationTx] and
    [signAndSubmitValidationTx] all throw "Lucid not initialized. Call
    initLucid first.".  When [initializeLucid] throws, [initLucid] throws the
    same error and the enforcer stays new.  When [initLucid] returns, the
    script is unchanged, the network is that of the configuration, and
    [getScriptAddress] returns the address that [validatorToAddress] gave for
    the PlutusV3 validator of the script's CBOR (if that address is not the
    empty string). *)
Theorem initLucid_protocol : forall script config,
  (getScriptAddress (new script) = Throw not_initialized
   /\ (forall policy, createPolicyUtxo (new script) policy = Throw not_initialized)
   /\ findPolicyUtxos (new script) = Throw not_initialized
   /\ (forall policy policyUtxo request,
       buildValidationTx (new script) policy policyUtxo request
       = Throw not_initialized)
   /\ (forall cbor, signAndSubmitValidationTx (new script) cbor
                    = Throw not_initialized))
  /\ (forall e, initializeLucid config = Throw e ->
      initLucid (new script) config = (new script, Throw e))
  /\ (forall this', initLucid (new script) config = (this', Ok tt) ->
      getScriptHash this' = hash script
      /\ getCborHex this' = cborHex script
      /\ this_network this' = network config
      /\ exists scriptAddress,
           Lucid.validatorToAddress (network config)
             {| Lucid.type := Lucid.PlutusV3; Lucid.script := cborHex script |}
           = Ok scriptAddress
           /\ (scriptAddress <> [] -> getScriptAddress this' = Ok scriptAddress)).
Proof.
  intros script config. split; [repeat split |]. split.
  - intros e H. unfold initLucid. rewrite H. reflexivity.
  - intros this' H. unfold initLucid in H.
    destruct (initializeLucid config) as [lucid | e]; [| discriminate H].
    cbn [new this_script] in H.
    assert (Hnet : match network config with Custom => Custom | other => other end
                   = network config) by (destruct (network config); reflexivity).
    rewrite Hnet in H.
    destruct (Lucid.validatorToAddress (network config) _) as [addr | e] eqn:Ha;
      [| discriminate H].
    injection H as <-. repeat split. exists addr. split; [reflexivity |].
    intros Hne. unfold getScriptAddress. cbn [this_scriptAddress].
    destruct addr; [now elim Hne | reflexivity].
Qed.

(** What [initLucid] keeps, however often it is called and whether it
    returns or throws: the script never changes; an enforcer without Lucid
    instance is still the new one; one with a Lucid instance has the
    PlutusV3 validator of its script; and when [getScriptAddress] returns,
    the Lucid instance is there, so that the other operations pass their
    guard, and the address is one that [validatorToAddress] gave for that
    validator. *)
Theorem enforcer_invariant : forall script this,
  reachable script this ->
  getScriptHash this = hash script
  /\ getCborHex this = cborHex script
  /\ (this_lucid this = None -> this = new script)
  /\ (forall lucid, this_lucid this = Some lucid ->
      this_validator this = Some (spend_validator script))
  /\ (forall scriptAddress, getScriptAddress this = Ok scriptAddress ->
      this_lucid this <> None
      /\ exists net,
           Lucid.validatorToAddress net (spend_validator script)
           = Ok scriptAddress).
Proof.
  intros script this Hreach.
  assert (Hinv : this_script this = script
                 /\ (this_lucid this = None -> this = new script)
                 /\ (forall lucid, this_lucid this = Some lucid ->
                     this_validator this = Some (spend_validator script))
                 /\ (forall a, this_scriptAddress this = Some a ->
                     this_lucid this <> None
                     /\ exists net,
                          Lucid.validatorToAddress net (spend_validator script)
                          = Ok a)).
  { induction Hreach as [|this config Hreach (Hs & Hnone & Hval & Haddr)].
    - split; [reflexivity |]. split; [reflexivity |].
      split; intros x H; discriminate H.
    - unfold initLucid.
      destruct (initializeLucid config) as [lucid | e];
        [| cbn [fst]; split; [exact Hs | split; [exact Hnone | split; [exact Hval | exact Haddr]]]].
      destruct (Lucid.validatorToAddress _ _) as [a | e] eqn:Ha;
        cbn [fst this_script this_lucid this_validator this_scriptAddress].
      + split; [exact Hs |]. split; [discriminate |].
        split; [intros _ _; unfold spend_validator; rewrite Hs; reflexivity |].
        intros a' H. injection H as <-. split; [discriminate |].
        eexists. unfold spend_validator. rewrite <- Hs. exact Ha.
      + split; [exact Hs |]. split; [discriminate |].
        split; [intros _ _; unfold spend_validator; rewrite Hs; reflexivity |].
        intros a' H. split; [discriminate |]. apply (Haddr a' H). }
  destruct Hinv as (Hs & Hnone & Hval & Haddr).
  unfold getScriptHash, getCborHex. rewrite Hs.
  repeat (split; [reflexivity || assumption |]).
  intros scriptAddress H. unfold getScriptAddress in H.
  destruct (this_scriptAddress this) as [[|c a]|]; try discriminate H.
  injection H as <-. apply Haddr. reflexivity.
Qed.

(** [fromBlueprint] takes the first validator of the blueprint whose title
    is exactly [spal.spal.spend]: the enforcer is a new one (not
    initialised) with the compiled code and the hash of that validator.
    Without such a validator it throws "S-PAL spend validator not found in
    blueprint". *)
Theorem fromBlueprint_first_spend_validator : forall validators,
  match fromBlueprint validators with
  | Ok this =>
      exists before v after,
        validators = before ++ v :: after
        /\ Blueprint.title v = spend_title
        /\ (forall w, In w before -> Blueprint.title w <> spend_title)
        /\ this = new (blueprint_script v)
        /\ getScriptAddress this = Throw not_initialized
  | Throw e =>
      e = Error (js "S-PAL spend validator not found in blueprint")
      /\ forall v, In v validators -> Blueprint.title v <> spend_title
  end.
Proof.
  intros validators. unfold fromBlueprint.
  induction validators as [|v validators IH]; cbn [find].
  - split; [reflexivity | intros v []].
  - destruct (str_eqb (Blueprint.title v) (js "spal.spal.spend")) eqn:Hv.
    + apply str_eqb_spec in Hv. exists [], v, validators.
      split; [reflexivity |]. split; [exact Hv |].
      split; [intros w [] |]. split; reflexivity.
    + assert (Hne : Blueprint.title v <> spend_title).
      { intros H. apply str_eqb_spec in H. unfold spend_title in H. congruence. }
      destruct (find _ validators) as [spendValidator|].
      * destruct IH as (before & w & after & -> & Hw & Hbefore & Hthis & _).
        exists (v :: before), w, after.
        split; [reflexivity |]. split; [exact Hw |].
        split; [| split; [exact Hthis | reflexivity]].
        intros x [<- | Hx]; [exact Hne | exact (Hbefore x Hx)].
      * destruct IH as [He Hall]. split; [exact He |].
        intros x [<- | Hx]; [exact Hne | exact (Hall x Hx)].
Qed.

(** The deployment script and the enforcer read the same blueprint.  When
    [fromBlueprint] finds its validator, so does [getValidatorInfo] of the
    deployment script (it takes the first validator whose title contains
    [spend]), and the address it computes is [addr_test1w] followed by the
    first 56 code units of the hash.  The two agree on the compiled code and
    on the hash when every title of the blueprint that contains [spend] is
    [spal.spal.spend]. *)
Theorem deploy_script_and_enforcer : forall validators this,
  fromBlueprint validators = Ok this ->
  exists info,
    Deploy.getValidatorInfo validators = Ok info
    /\ Deploy.address info = js "addr_test1w" ++ firstn 56 (Deploy.hash info)
    /\ ((forall v, In v validators ->
           occurs_in (js "spend") (Blueprint.title v) ->
           Blueprint.title v = spend_title) ->
        Deploy.compiledCode info = getCborHex this
        /\ Deploy.hash info = getScriptHash this).
Proof.
  intros validators this. unfold fromBlueprint, Deploy.getValidatorInfo.
  induction validators as [|v validators IH]; cbn [find]; [discriminate |].
  destruct (str_eqb (Blueprint.title v) (js "spal.spal.spend")) eqn:Hv.
  - intros H. injection H as <-. apply str_eqb_spec in Hv. rewrite Hv.
    eexists. split; [reflexivity |]. split; [reflexivity |].
    intros _. split; reflexivity.
  - intros H. destruct (includes (Blueprint.title v) (js "spend")) eqn:Hi.
    + eexists. split; [reflexivity |]. split; [reflexivity |].
      intros Hall. apply includes_spec in Hi.
      assert (Ht : Blueprint.title v = spend_title)
        by (apply Hall; [left; reflexivity | exact Hi]).
      apply str_eqb_spec in Ht. unfold spend_title in Ht. congruence.
    + destruct (IH H) as (info & Hinfo & Haddr & Hagree).
      exists info. split; [exact Hinfo |]. split; [exact Haddr |].
      intros Hall. apply Hagree. intros w Hw. apply Hall. right. exact Hw.
Qed.

Lemma findPolicyUtxos_turn_spec : forall result utxo,
  findPolicyUtxos_turn result utxo = result ++ found_entries utxo.
Proof.
  intros result utxo. unfold findPolicyUtxos_turn, found_entries, deserializeDatum.
  destruct (Lucid.datum utxo) as [[|c cbor]|]; cbn [truthy_opt truthy];
    try (rewrite app_nil_r; reflexivity).
  destruct (Data_from (c :: cbor)) as [data | e];
    [| rewrite app_nil_r; reflexivity].
  destruct (parsePolicyDatum data); try reflexivity.
  rewrite app_nil_r. reflexivity.
Qed.

Lemma findPolicyUtxos_loop_spec : forall utxos,
  findPolicyUtxos_loop utxos = flat_map found_entries utxos.
Proof.
  intros utxos. unfold findPolicyUtxos_loop.
  assert (H : forall result,
            fold_left findPolicyUtxos_turn utxos result
            = result ++ flat_map found_entries utxos);
    [| exact (H [])].
  induction utxos as [|utxo rest IH]; intros result; cbn [fold_left flat_map].
  - rewrite app_nil_r. reflexivity.
  - rewrite IH, findPolicyUtxos_turn_spec, <- app_assoc. reflexivity.
Qed.

Lemma found_entries_length : forall utxo,
  (List.length (found_entries utxo) <= 1)%nat.
Proof.
  intros utxo. unfold found_entries.
  destruct (Lucid.datum utxo) as [[|c cbor]|]; cbn [List.length]; try lia.
  destruct (deserializeDatum (c :: cbor)); cbn [List.length]; lia.
Qed.

Lemma found_entries_In : forall utxo entry,
  In entry (found_entries utxo) ->
  entry = found_entry utxo (PolicyUtxo.datum entry).
Proof.
  intros utxo entry H. unfold found_entries in H.
  destruct (Lucid.datum utxo) as [[|c cbor]|]; try (destruct H).
  destruct (deserializeDatum (c :: cbor)); cbn [In] in H;
    [destruct H as [<- | []]; reflexivity | destruct H
    | destruct H as [<- | []]; reflexivity].
Qed.

(** [findPolicyUtxos] skips what it cannot read and keeps the rest in
    order.  It throws only before the loop: the initialisation error, or the
    error of [utxosAt]; a datum that the library or [parsePolicyDatum]
    rejects makes it throw nothing.  When it returns, its result is, output
    by output and in the order of the outputs at the script address, the
    entry of each output that carries a datum (not the empty string) from
    which [deserializeDatum] returns without throwing, with the hash, the
    index and the lovelace of the output, and nothing for the other outputs:
    at most one entry for an output, so at most as many entries as
    outputs. *)
Theorem findPolicyUtxos_skips_bad_datums : forall this,
  (forall e, findPolicyUtxos this = Throw e ->
     e = not_initialized
     \/ exists lucid scriptAddress,
          this_lucid this = Some lucid
          /\ this_scriptAddress this = Some scriptAddress
          /\ Lucid.utxosAt lucid scriptAddress = Throw e)
  /\ (forall found, findPolicyUtxos this = Ok found ->
      exists lucid scriptAddress utxos,
        this_lucid this = Some lucid
        /\ this_scriptAddress this = Some scriptAddress
        /\ scriptAddress <> []
        /\ Lucid.utxosAt lucid scriptAddress = Ok utxos
        /\ found = flat_map found_entries utxos
        /\ (forall u, (List.length (found_entries u) <= 1)%nat)
        /\ (List.length found <= List.length utxos)%nat).
Proof.
  intros this. unfold findPolicyUtxos.
  destruct (this_lucid this) as [lucid|];
    [| split; [intros e H; injection H as <-; left; reflexivity
              | intros found H; discriminate H]].
  destruct (this_scriptAddress this) as [[|c scriptAddress]|];
    try (split; [intros e H; injection H as <-; left; reflexivity
                | intros found H; discriminate H]).
  cbn [truthy negb].
  destruct (Lucid.utxosAt lucid (c :: scriptAddress)) as [utxos | e'] eqn:Hu;
    cbn [bind].
  - split; [intros e H; discriminate H |].
    intros found H. injection H as <-.
    exists lucid, (c :: scriptAddress), utxos.
    split; [reflexivity |]. split; [reflexivity |]. split; [discriminate |].
    split; [exact Hu |]. split; [apply findPolicyUtxos_loop_spec |].
    split; [exact found_entries_length |].
    rewrite findPolicyUtxos_loop_spec. clear Hu.
    induction utxos as [|u rest IH]; cbn [flat_map List.length]; [apply le_n |].
    rewrite length_app. pose proof (found_entries_length u). lia.
  - split; [| intros found H; discriminate H].
    intros e H. injection H as <-. right.
    exists lucid, (c :: scriptAddress). repeat split. exact Hu.
Qed.

Lemma same_output_spec : forall policyUtxo u,
  same_output policyUtxo u = true
  <-> Lucid.txHash u = PolicyUtxo.txHash policyUtxo
      /\ Int (Lucid.outputIndex u) = PolicyUtxo.outputIndex policyUtxo.
Proof.
  intros policyUtxo u. unfold same_output.
  rewrite andb_true_iff, str_eqb_spec.
  destruct (PolicyUtxo.outputIndex policyUtxo) as [index|].
  - rewrite Z.eqb_eq. split; intros [H1 H2]; split; congruence.
  - split; intros [H1 H2]; discriminate.
Qed.

Lemma find_same_output : forall policyUtxo utxos,
  match find (same_output policyUtxo) utxos with
  | Some targetUtxo =>
      In targetUtxo utxos
      /\ Lucid.txHash targetUtxo = PolicyUtxo.txHash policyUtxo
      /\ Int (Lucid.outputIndex targetUtxo) = PolicyUtxo.outputIndex policyUtxo
  | None =>
      forall u, In u utxos ->
        ~ (Lucid.txHash u = PolicyUtxo.txHash policyUtxo
           /\ Int (Lucid.outputIndex u) = PolicyUtxo.outputIndex policyUtxo)
  end.
Proof.
  intros policyUtxo utxos.
  destruct (find (same_output policyUtxo) utxos) as [targetUtxo|] eqn:H.
  - apply find_some in H. destruct H as [Hin H].
    apply same_output_spec in H. tauto.
  - intros u Hin Hu. apply same_output_spec in Hu.
    pose proof (find_none _ _ H u Hin) as Hn. congruence.
Qed.

Lemma createPolicyUtxo_tx_ready : forall this policy lucid scriptAddress datumCbor,
  this_lucid this = Some lucid ->
  this_scriptAddress this = Some scriptAddress ->
  scriptAddress <> [] ->
  serializeDatum policy = Ok datumCbor ->
  createPolicyUtxo_tx this policy
  = Ok (lucid, [policy_output scriptAddress datumCbor]).
Proof.
  intros this policy lucid scriptAddress datumCbor Hl Ha Hne Hd.
  unfold createPolicyUtxo_tx. rewrite Hl, Ha.
  destruct scriptAddress as [|c a]; [now elim Hne |]. cbn [truthy negb].
  unfold serializeDatum in Hd.
  destruct (buildPolicyDatum policy) as [datum | e]; [| discriminate Hd].
  cbn [bind] in *. rewrite Hd. reflexivity.
Qed.

Lemma txBuilder_steps : forall this policy policyUtxo request lucid steps,
  txBuilder this policy policyUtxo request = Ok (lucid, steps) ->
  exists validator scriptAddress utxos targetUtxo redeemerCbor payment output,
    this_validator this = Some validator
    /\ this_scriptAddress this = Some scriptAddress
    /\ Lucid.utxosAt lucid scriptAddress = Ok utxos
    /\ In targetUtxo utxos
    /\ Lucid.txHash targetUtxo = PolicyUtxo.txHash policyUtxo
    /\ Int (Lucid.outputIndex targetUtxo) = PolicyUtxo.outputIndex policyUtxo
    /\ serializeRedeemer request = Ok redeemerCbor
    /\ createPolicyUtxo_tx this policy = Ok (lucid, output)
    /\ steps = [Lucid.collectFrom [targetUtxo] redeemerCbor;
                Lucid.attach_SpendingValidator validator;
                Lucid.addSignerKey (ownerPkh policy)] ++ payment ++ output
    /\ ((0 < minPayment policy /\ 0 < paymentAmount request
         /\ exists ownerAddress,
              Lucid.credentialToAddress (this_network this)
                (Lucid.keyHashToCredential (ownerPkh policy)) = Ok ownerAddress
              /\ payment = [Lucid.pay_ToAddress ownerAddress
                              {| Lucid.lovelace := paymentAmount request;
                                 Lucid.units := [] |}])
        \/ (~ (0 < minPayment policy /\ 0 < paymentAmount request)
            /\ payment = [])).
Proof.
  intros this policy policyUtxo request lucid steps H. unfold txBuilder in H.
  destruct (this_lucid this) as [lucid'|] eqn:Hl; [| discriminate H].
  destruct (this_validator this) as [validator|] eqn:Hv; [| discriminate H].
  destruct (this_scriptAddress this) as [[|c scriptAddress]|] eqn:Ha;
    try discriminate H.
  cbn [truthy negb] in H.
  destruct (buildAccessRedeemer request) as [redeemer | e] eqn:Hr;
    [| discriminate H]. cbn [bind] in H.
  destruct (Data_to redeemer) as [redeemerCbor | e] eqn:Hrc;
    [| discriminate H]. cbn [bind] in H.
  destruct (buildPolicyDatum policy) as [datum | e] eqn:Hd;
    [| discriminate H]. cbn [bind] in H.
  destruct (Data_to datum) as [datumCbor | e] eqn:Hdc;
    [| discriminate H]. cbn [bind] in H.
  destruct (Lucid.utxosAt lucid' (c :: scriptAddress)) as [utxos | e] eqn:Hu;
    [| discriminate H]. cbn [bind] in H.
  pose proof (find_same_output policyUtxo utxos) as Hfind.
  destruct (find (same_output policyUtxo) utxos) as [targetUtxo|];
    [| discriminate H].
  destruct Hfind as (Hin & Hhash & Hindex).
  assert (Hout : createPolicyUtxo_tx this policy
                 = Ok (lucid', [policy_output (c :: scriptAddress) datumCbor])).
  { apply createPolicyUtxo_tx_ready; try assumption; try discriminate.
    unfold serializeDatum. rewrite Hd. exact Hdc. }
  assert (Hred : serializeRedeemer request = Ok redeemerCbor).
  { unfold serializeRedeemer. rewrite Hr. exact Hrc. }
  destruct (Z.ltb_spec 0 (minPayment policy)) as [Hmin | Hmin];
    [destruct (Z.ltb_spec 0 (paymentAmount request)) as [Hpay | Hpay] |];
    cbn [andb] in H.
  - destruct (Lucid.credentialToAddress _ _) as [ownerAddress | e] eqn:Hc;
      [| discriminate H]. cbn [bind] in H.
    injection H as <- <-.
    exists validator, (c :: scriptAddress), utxos, targetUtxo, redeemerCbor.
    exists [Lucid.pay_ToAddress ownerAddress
              {| Lucid.lovelace := paymentAmount request; Lucid.units := [] |}].
    exists [policy_output (c :: scriptAddress) datumCbor].
    repeat (split; [eassumption || reflexivity |]).
    left. repeat (split; [assumption |]). exists ownerAddress.
    split; reflexivity.
  - cbn [bind] in H. injection H as <- <-.
    exists validator, (c :: scriptAddress), utxos, targetUtxo, redeemerCbor.
    exists [], [policy_output (c :: scriptAddress) datumCbor].
    repeat (split; [eassumption || reflexivity |]).
    right. split; [lia | reflexivity].
  - cbn [bind] in H. injection H as <- <-.
    exists validator, (c :: scriptAddress), utxos, targetUtxo, redeemerCbor.
    exists [], [policy_output (c :: scriptAddress) datumCbor].
    repeat (split; [eassumption || reflexivity |]).
    right. split; [lia | reflexivity].
Qed.

(** The validation transaction.  When [buildValidationTx] gets as far as
    [complete], the builder holds, in this order: the spending of one output
    found at the script address, with the hash and the index of [policyUtxo],
    under the redeemer [serializeRedeemer(request)]; the validator; the
    owner's key as required signer; a payment of [request.paymentAmount]
    lovelace to the owner's address exactly when both [policy.minPayment]
    and [request.paymentAmount] are positive; and the output that
    [createPolicyUtxo] creates for [policy].  The datum and the lovelace of
    [policyUtxo] are not used. *)
Theorem validation_tx_shape : forall this policy policyUtxo request lucid steps,
  txBuilder this policy policyUtxo request = Ok (lucid, steps) ->
  exists validator scriptAddress utxos targetUtxo redeemerCbor payment output,
    this_validator this = Some validator
    /\ this_scriptAddress this = Some scriptAddress
    /\ Lucid.utxosAt lucid scriptAddress = Ok utxos
    /\ In targetUtxo utxos
    /\ Lucid.txHash targetUtxo = PolicyUtxo.txHash policyUtxo
    /\ Int (Lucid.outputIndex targetUtxo) = PolicyUtxo.outputIndex policyUtxo
    /\ serializeRedeemer request = Ok redeemerCbor
    /\ createPolicyUtxo_tx this policy = Ok (lucid, output)
    /\ steps = [Lucid.collectFrom [targetUtxo] redeemerCbor;
                Lucid.attach_SpendingValidator validator;
                Lucid.addSignerKey (ownerPkh policy)] ++ payment ++ output
    /\ ((0 < minPayment policy /\ 0 < paymentAmount request
         /\ exists ownerAddress,
              Lucid.credentialToAddress (this_network this)
                (Lucid.keyHashToCredential (ownerPkh policy)) = Ok ownerAddress
              /\ payment = [Lucid.pay_ToAddress ownerAddress
                              {| Lucid.lovelace := paymentAmount request;
                                 Lucid.units := [] |}])
        \/ (~ (0 < minPayment policy /\ 0 < paymentAmount request)
            /\ payment = [])).
Proof. exact txBuilder_steps. Qed.

(** [createPolicyUtxo] returns the hash of a submitted transaction: when it
    returns, the enforcer is initialised, the retention of the policy is an
    integer, and the transaction that was completed, signed and submitted
    asks for one output, at the script address, with the serialized datum of
    the policy inline and 2000000 lovelace. *)
Theorem createPolicyUtxo_output : forall this policy hash,
  createPolicyUtxo this policy = Ok hash ->
  exists lucid scriptAddress z datumCbor tx signedTx,
    this_lucid this = Some lucid
    /\ this_scriptAddress this = Some scriptAddress
    /\ scriptAddress <> []
    /\ maxRetentionMs policy = Int z
    /\ Data_to (policyTree policy z) = Ok datumCbor
    /\ Lucid.complete lucid [policy_output scriptAddress datumCbor] = Ok tx
    /\ Lucid.sign_withWallet_complete tx = Ok signedTx
    /\ Lucid.submit signedTx = Ok hash.
Proof.
  intros this policy hash H. unfold createPolicyUtxo, createPolicyUtxo_tx in H.
  destruct (this_lucid this) as [lucid|]; [| discriminate H].
  destruct (this_scriptAddress this) as [[|c scriptAddress]|];
    try discriminate H.
  cbn [truthy negb] in H.
  destruct (maxRetentionMs policy) as [z|] eqn:Hz;
    [| rewrite (buildPolicyDatum_NonInt policy Hz) in H; discriminate H].
  rewrite (buildPolicyDatum_Int policy z Hz) in H. cbn [bind] in H.
  destruct (Data_to (policyTree policy z)) as [datumCbor | e] eqn:Hd;
    [| discriminate H]. cbn [bind fst snd] in H.
  destruct (Lucid.complete lucid _) as [tx | e] eqn:Hc; [| discriminate H].
  cbn [bind] in H.
  destruct (Lucid.sign_withWallet_complete tx) as [signedTx | e] eqn:Hs;
    [| discriminate H]. cbn [bind] in H.
  exists lucid, (c :: scriptAddress), z, datumCbor, tx, signedTx.
  repeat (split; [reflexivity || assumption || discriminate |]). exact H.
Qed.

Lemma findPolicyUtxos_loop_In : forall utxos entry,
  In entry (findPolicyUtxos_loop utxos) ->
  exists u, In u utxos /\ entry = found_entry u (PolicyUtxo.datum entry).
Proof.
  intros utxos entry Hin. rewrite findPolicyUtxos_loop_spec in Hin.
  apply in_flat_map in Hin. destruct Hin as (u & Hu & He).
  exists u. split; [exact Hu | apply found_entries_In, He].
Qed.

(** What [findPolicyUtxos] finds, [buildValidationTx] can spend.  On an
    initialised enforcer, with the outputs [utxos] at the script address,
    whatever their datums, an entry that the loop of [findPolicyUtxos]
    returns for [utxos] is never "Policy UTxO not found": when the redeemer
    and the datum serialize and the owner's address is computed, the builder
    is complete, and the output it spends has the hash and the index of the
    entry. *)
Theorem found_policy_is_spendable :
  forall this lucid validator scriptAddress utxos entry policy request
         redeemerCbor datumCbor ownerAddress,
  this_lucid this = Some lucid ->
  this_validator this = Some validator ->
  this_scriptAddress this = Some scriptAddress ->
  scriptAddress <> [] ->
  Lucid.utxosAt lucid scriptAddress = Ok utxos ->
  In entry (findPolicyUtxos_loop utxos) ->
  serializeRedeemer request = Ok redeemerCbor ->
  serializeDatum policy = Ok datumCbor ->
  Lucid.credentialToAddress (this_network this)
    (Lucid.keyHashToCredential (ownerPkh policy)) = Ok ownerAddress ->
  exists targetUtxo,
    In targetUtxo utxos
    /\ Lucid.txHash targetUtxo = PolicyUtxo.txHash entry
    /\ Int (Lucid.outputIndex targetUtxo) = PolicyUtxo.outputIndex entry
    /\ txBuilder this policy entry request
       = Ok (lucid,
             spend_steps targetUtxo redeemerCbor validator (ownerPkh policy)
             ++ (if (0 <? minPayment policy) && (0 <? paymentAmount request)
                 then [Lucid.pay_ToAddress ownerAddress
                         {| Lucid.lovelace := paymentAmount request;
                            Lucid.units := [] |}]
                 else [])
             ++ [policy_output scriptAddress datumCbor]).
Proof.
  intros this lucid validator scriptAddress utxos entry policy request
    redeemerCbor datumCbor ownerAddress Hl Hv Ha Hne Hu Hin Hr Hd Hc.
  destruct (findPolicyUtxos_loop_In utxos entry Hin) as (u & Hu_in & He).
  assert (Hsame : same_output entry u = true).
  { apply same_output_spec. rewrite He. split; reflexivity. }
  pose proof (find_same_output entry utxos) as Hfind.
  destruct (find (same_output entry) utxos) as [targetUtxo|] eqn:Hf.
  - destruct Hfind as (Ht_in & Hhash & Hindex). exists targetUtxo.
    repeat (split; [assumption |]).
    unfold txBuilder. rewrite Hl, Hv, Ha.
    destruct scriptAddress as [|c a]; [now elim Hne |]. cbn [truthy negb].
    unfold serializeRedeemer in Hr. unfold serializeDatum in Hd.
    destruct (buildAccessRedeemer request) as [redeemer | e]; [| discriminate Hr].
    cbn [bind] in *. rewrite Hr. cbn [bind].
    destruct (buildPolicyDatum policy) as [datum | e]; [| discriminate Hd].
    cbn [bind] in *. rewrite Hd. cbn [bind]. rewrite Hu. cbn [bind].
    rewrite Hf.
    destruct ((0 <? minPayment policy) && (0 <? paymentAmount request)).
    + rewrite Hc. cbn [bind]. rewrite <- app_assoc. reflexivity.
    + cbn [bind]. reflexivity.
  - apply same_output_spec in Hsame. now elim (Hfind u Hu_in).
Qed.

(** A request that [validate] accepts pays the owner.  For a policy that
    asks for a payment, when [validate] accepts the request and the
    validation transaction is built, the transaction pays
    [request.paymentAmount] lovelace, at least [policy.minPayment], to the
    address of the owner's key. *)
Theorem accepted_request_pays_owner :
  forall this policy policyUtxo request lucid steps,
  validate policy request = accepted ->
  0 < minPayment policy ->
  txBuilder this policy policyUtxo request = Ok (lucid, steps) ->
  minPayment policy <= paymentAmount request
  /\ exists ownerAddress,
       Lucid.credentialToAddress (this_network this)
         (Lucid.keyHashToCredential (ownerPkh policy)) = Ok ownerAddress
       /\ In (Lucid.pay_ToAddress ownerAddress
                {| Lucid.lovelace := paymentAmount request; Lucid.units := [] |})
             steps.
Proof.
  intros this policy policyUtxo request lucid steps Hvalid Hmin H.
  assert (Hpay : minPayment policy <= paymentAmount request).
  { rewrite validate_cascade in Hvalid.
    destruct (identity_fails policy request); [discriminate Hvalid |].
    destruct (payment_fails policy request) eqn:Hp; [discriminate Hvalid |].
    apply payment_fails_spec in Hp. unfold payment_ok in Hp. lia. }
  split; [exact Hpay |].
  destruct (txBuilder_steps _ _ _ _ _ _ H)
    as (validator & scriptAddress & utxos & targetUtxo & redeemerCbor & payment
        & output & _ & _ & _ & _ & _ & _ & _ & _ & -> & Hcase).
  destruct Hcase as [(_ & _ & ownerAddress & Hc & ->) | [Hno _]]; [| lia].
  exists ownerAddress. split; [exact Hc |].
  apply in_or_app. right. apply in_or_app. left. left. reflexivity.
Qed.

(** A policy that is on chain is found as it was created.  When one of the
    outputs carries the datum [serializeDatum(policy)], for a policy that
    makes the round trip (integer retention, context scope that is text not
    starting with U+FEFF, tree read back by the library), the result of the
    loop of [findPolicyUtxos] holds the entry of that output with the policy,
    [id] being the empty string, whatever the other outputs carry. *)
Theorem created_policy_is_found : forall policy z datumCbor utxos u,
  maxRetentionMs policy = Int z ->
  representable z ->
  isWellFormed (contextScope policy) = true ->
  (forall rest, contextScope policy <> 0xFEFF :: rest) ->
  reads_back (policyTree policy z) ->
  serializeDatum policy = Ok datumCbor ->
  datumCbor <> [] ->
  In u utxos ->
  Lucid.datum u = Some datumCbor ->
  In (found_entry u (Typed (with_id (js "") policy)))
     (findPolicyUtxos_loop utxos).
Proof.
  intros policy z datumCbor utxos u Hz Hrep Hwf Hbom (cbor & Hto & Hfrom)
    Hser Hne Hin Hdatum.
  assert (Hcbor : datumCbor = cbor).
  { unfold serializeDatum in Hser.
    rewrite (buildPolicyDatum_Int policy z Hz) in Hser. cbn [bind] in Hser.
    congruence. }
  subst cbor.
  rewrite findPolicyUtxos_loop_spec. apply in_flat_map. exists u.
  split; [exact Hin |]. unfold found_entries. rewrite Hdatum.
  destruct datumCbor as [|c datumCbor]; [now elim Hne |].
  unfold deserializeDatum. rewrite Hfrom.
  rewrite (parsePolicyDatum_policyTree_text policy z Hz Hrep Hwf Hbom).
  left. reflexivity.
Qed.

End OnChain.

Lemma enforcer_invariant_witness :
  Enforcer.getScriptHash testEnforcer = hash testScript
  /\ Enforcer.getCborHex testEnforcer = cborHex testScript
  /\ (Enforcer.this_lucid testEnforcer = None
      -> testEnforcer = Enforcer.new testScript)
  /\ (forall lucid, Enforcer.this_lucid testEnforcer = Some lucid ->
      Enforcer.this_validator testEnforcer = Some (spend_validator testScript))
  /\ (forall scriptAddress,
      Enforcer.getScriptAddress testEnforcer = Ok scriptAddress ->
      Enforcer.this_lucid testEnforcer <> None
      /\ exists net,
           Lucid.validatorToAddress (SDK := chain_sdk testChain) net
             (spend_validator testScript)
           = Ok scriptAddress).
Proof.
  apply (enforcer_invariant (sdk := chain_sdk testChain) testScript testEnforcer).
  apply reachable_initLucid, reachable_new.
Defined.

Lemma deploy_script_and_enforcer_witness :
  exists info,
    Deploy.getValidatorInfo testBlueprint = Ok info
    /\ Deploy.address info = js "addr_test1w" ++ firstn 56 (Deploy.hash info)
    /\ ((forall v, In v testBlueprint ->
           occurs_in (js "spend") (Blueprint.title v) ->
           Blueprint.title v = spend_title) ->
        Deploy.compiledCode info
        = Enforcer.getCborHex (sdk := chain_sdk testChain)
            (Enforcer.new testScript)
        /\ Deploy.hash info
           = Enforcer.getScriptHash (sdk := chain_sdk testChain)
               (Enforcer.new testScript)).
Proof.
  apply (deploy_script_and_enforcer (sdk := chain_sdk testChain) testBlueprint
           (Enforcer.new testScript)).
  reflexivity.
Defined.

(** What the loop finds on the chain of the tests, and the transaction that
    spends it. *)
Lemma testChain_found :
  Enforcer.findPolicyUtxos_loop (codec := CBOR.codec) testChain
  = [strayEntry; testEntry].
Proof. vm_compute. reflexivity. Defined.

Lemma testTx_built :
  Enforcer.txBuilder (codec := CBOR.codec) testEnforcer ownerPolicy testEntry
    proofRequest
  = Ok (tt,
        spend_steps
          (scriptOutput (js "bb02") 0 (Some (testDatumCbor testPolicy 86400000)))
          (CBOR.toHex (CBOR.item (redeemerTree proofRequest 1704067200000)))
          (spend_validator testScript) (ownerPkh ownerPolicy)
        ++ [Lucid.pay_ToAddress (js "addr_test1v" ++ ownerPkh ownerPolicy)
              {| Lucid.lovelace := 1000000; Lucid.units := [] |};
            policy_output (js "addr_test1w590a4c01")
              (testDatumCbor ownerPolicy 86400000)]).
Proof. vm_compute. reflexivity. Defined.

Lemma validation_tx_shape_witness :
  exists validator scriptAddress utxos targetUtxo redeemerCbor payment output,
    Enforcer.this_validator testEnforcer = Some validator
    /\ Enforcer.this_scriptAddress testEnforcer = Some scriptAddress
    /\ Lucid.utxosAt (SDK := chain_sdk testChain) tt scriptAddress = Ok utxos
    /\ In targetUtxo utxos
    /\ Lucid.txHash targetUtxo = PolicyUtxo.txHash testEntry
    /\ Int (Lucid.outputIndex targetUtxo) = PolicyUtxo.outputIndex testEntry
    /\ serializeRedeemer (codec := CBOR.codec) proofRequest = Ok redeemerCbor
    /\ Enforcer.createPolicyUtxo_tx (codec := CBOR.codec) testEnforcer ownerPolicy
       = Ok (tt, output)
    /\ spend_steps
         (scriptOutput (js "bb02") 0 (Some (testDatumCbor testPolicy 86400000)))
         (CBOR.toHex (CBOR.item (redeemerTree proofRequest 1704067200000)))
         (spend_validator testScript) (ownerPkh ownerPolicy)
       ++ [Lucid.pay_ToAddress (js "addr_test1v" ++ ownerPkh ownerPolicy)
             {| Lucid.lovelace := 1000000; Lucid.units := [] |};
           policy_output (js "addr_test1w590a4c01")
             (testDatumCbor ownerPolicy 86400000)]
       = [Lucid.collectFrom [targetUtxo] redeemerCbor;
          Lucid.attach_SpendingValidator validator;
          Lucid.addSignerKey (ownerPkh ownerPolicy)] ++ payment ++ output
    /\ ((0 < minPayment ownerPolicy /\ 0 < paymentAmount proofRequest
         /\ exists ownerAddress,
              Lucid.credentialToAddress (SDK := chain_sdk testChain)
                (Enforcer.this_network testEnforcer)
                (Lucid.keyHashToCredential (SDK := chain_sdk testChain)
                   (ownerPkh ownerPolicy)) = Ok ownerAddress
              /\ payment = [Lucid.pay_ToAddress ownerAddress
                              {| Lucid.lovelace := paymentAmount proofRequest;
                                 Lucid.units := [] |}])
        \/ (~ (0 < minPayment ownerPolicy /\ 0 < paymentAmount proofRequest)
            /\ payment = [])).
Proof.
  apply (validation_tx_shape (sdk := chain_sdk testChain) (codec := CBOR.codec)
           testEnforcer ownerPolicy testEntry proofRequest tt).
  exact testTx_built.
Defined.

Lemma createPolicyUtxo_output_witness :
  exists lucid scriptAddress z datumCbor tx signedTx,
    Enforcer.this_lucid testEnforcer = Some lucid
    /\ Enforcer.this_scriptAddress testEnforcer = Some scriptAddress
    /\ scriptAddress <> []
    /\ maxRetentionMs testPolicy = Int z
    /\ Data_to (DataCodec := CBOR.codec) (policyTree testPolicy z) = Ok datumCbor
    /\ Lucid.complete (SDK := chain_sdk testChain) lucid
         [policy_output scriptAddress datumCbor] = Ok tx
    /\ Lucid.sign_withWallet_complete (SDK := chain_sdk testChain) tx = Ok signedTx
    /\ Lucid.submit (SDK := chain_sdk testChain) signedTx = Ok (js "5f1a").
Proof.
  apply (createPolicyUtxo_output (sdk := chain_sdk testChain)
           (codec := CBOR.codec) testEnforcer testPolicy (js "5f1a")).
  vm_compute. reflexivity.
Defined.

Lemma found_policy_is_spendable_witness :
  exists targetUtxo,
    In targetUtxo testChain
    /\ Lucid.txHash targetUtxo = PolicyUtxo.txHash strayEntry
    /\ Int (Lucid.outputIndex targetUtxo) = PolicyUtxo.outputIndex strayEntry
    /\ Enforcer.txBuilder (codec := CBOR.codec) testEnforcer ownerPolicy
         strayEntry proofRequest
       = Ok (tt,
             spend_steps targetUtxo
               (CBOR.toHex (CBOR.item (redeemerTree proofRequest 1704067200000)))
               (spend_validator testScript) (ownerPkh ownerPolicy)
             ++ (if (0 <? minPayment ownerPolicy)
                    && (0 <? paymentAmount proofRequest)
                 then [Lucid.pay_ToAddress
                         (js "addr_test1v" ++ ownerPkh ownerPolicy)
                         {| Lucid.lovelace := paymentAmount proofRequest;
                            Lucid.units := [] |}]
                 else [])
             ++ [policy_output (js "addr_test1w590a4c01")
                   (testDatumCbor ownerPolicy 86400000)]).
Proof.
  apply (found_policy_is_spendable (sdk := chain_sdk testChain)
           (codec := CBOR.codec) testEnforcer tt (spend_validator testScript)
           (js "addr_test1w590a4c01") testChain strayEntry
           ownerPolicy proofRequest).
  - reflexivity.
  - reflexivity.
  - reflexivity.
  - discriminate.
  - reflexivity.
  - rewrite testChain_found. left. reflexivity.
  - vm_compute. reflexivity.
  - vm_compute. reflexivity.
  - reflexivity.
Defined.

Lemma accepted_request_pays_owner_witness :
  minPayment ownerPolicy <= paymentAmount proofRequest
  /\ exists ownerAddress,
       Lucid.credentialToAddress (SDK := chain_sdk testChain)
         (Enforcer.this_network testEnforcer)
         (Lucid.keyHashToCredential (SDK := chain_sdk testChain)
            (ownerPkh ownerPolicy)) = Ok ownerAddress
       /\ In (Lucid.pay_ToAddress ownerAddress
                {| Lucid.lovelace := paymentAmount proofRequest;
                   Lucid.units := [] |})
             (spend_steps
                (scriptOutput (js "bb02") 0
                   (Some (testDatumCbor testPolicy 86400000)))
                (CBOR.toHex (CBOR.item (redeemerTree proofRequest 1704067200000)))
                (spend_validator testScript) (ownerPkh ownerPolicy)
              ++ [Lucid.pay_ToAddress (js "addr_test1v" ++ ownerPkh ownerPolicy)
                    {| Lucid.lovelace := 1000000; Lucid.units := [] |};
                  policy_output (js "addr_test1w590a4c01")
                    (testDatumCbor ownerPolicy 86400000)]).
Proof.
  apply (accepted_request_pays_owner (sdk := chain_sdk testChain)
           (codec := CBOR.codec) testEnforcer ownerPolicy testEntry
           proofRequest tt).
  - reflexivity.
  - reflexivity.
  - exact testTx_built.
Defined.

Lemma created_policy_is_found_witness :
  In (found_entry
        (scriptOutput (js "bb02") 0 (Some (testDatumCbor testPolicy 86400000)))
        (Typed (with_id (js "") testPolicy)))
     (Enforcer.findPolicyUtxos_loop (codec := CBOR.codec) testChain).
Proof.
  apply (created_policy_is_found (codec := CBOR.codec) testPolicy 86400000
           (testDatumCbor testPolicy 86400000) testChain).
  - reflexivity.
  - exact representable_day.
  - vm_compute. reflexivity.
  - intros rest H. vm_compute in H. discriminate H.
  - exact reads_back_testPolicy.
  - vm_compute. reflexivity.
  - intros H. vm_compute in H. discriminate H.
  - right. right. right. left. reflexivity.
  - reflexivity.
Defined.
